(** * Intraday candlestick widget: aggregation and refresh lifecycle

    A shallow embedding of [src/widgets/symbol-intraday-candlestick-widget.tsx]:
    the tick normalisation and the candle aggregation ([parseIntradayTime],
    [aggregateCandles]), the legend lookup map, and the React component's
    state with its event handlers and effects, written as a transition
    function on an explicit state record. *)

From Stdlib Require Import ZArith String Ascii List Bool Lia SpecFloat.
From Stdlib Require Import Sorted Permutation.
From stdpp Require Import base option list gmap strings.

Local Open Scope Z_scope.

(** ** JavaScript numbers

    A JS [number] is an IEEE-754 binary64 value.  Prices and volumes are kept
    as such ([spec_float] at precision 53, maximal exponent 1024), with the
    operations the widget applies to them.  Timestamps are integers: see
    [parseIntradayTime] below. *)

Module JS.

Definition number : Type := spec_float.

Definition prec : Z := 53.
Definition emax : Z := 1024.

Definition add (x y : number) : number := SFadd prec emax x y.
Definition sub (x y : number) : number := SFsub prec emax x y.
Definition mul (x y : number) : number := SFmul prec emax x y.
Definition div (x y : number) : number := SFdiv prec emax x y.

  (** The double nearest to an integer literal. *)
Definition of_Z (z : Z) : number := binary_normalize prec emax z 0 false.

Definition zero : number := S754_zero false.

Definition isNaN (x : number) : bool :=
    match x with S754_nan => true | _ => false end.

  (** [x <= y], [x >= y], [x > y] and [x !== y] on numbers. *)
Definition le (x y : number) : bool := SFleb x y.
Definition ge (x y : number) : bool := SFleb y x.
Definition gt (x y : number) : bool := SFltb y x.
Definition strict_neq (x y : number) : bool := negb (SFeqb x y).

  (** [Math.max(x, y)]: NaN when an argument is NaN; the running maximum
      starts at [-Infinity], takes [x], then takes [y] when [y > x] or when
      [y] is [+0] and the maximum so far is [-0]. *)
Definition Math_max (x y : number) : number :=
    if isNaN x || isNaN y then S754_nan
    else if SFltb x y then y
    else match x, y with
         | S754_zero true, S754_zero false => y
         | _, _ => x
         end.

  (** [Math.min(x, y)], symmetrically ([-0] is below [+0]). *)
Definition Math_min (x y : number) : number :=
    if isNaN x || isNaN y then S754_nan
    else if SFltb y x then y
    else match x, y with
         | S754_zero false, S754_zero true => y
         | _, _ => x
         end.

  (** Truthiness of a string: the empty string is falsy. *)
Definition truthy_string (s : string) : bool :=
    match s with EmptyString => false | String _ _ => true end.

End JS.

(** ** Types of the widget *)

Record IntradayItem := mkItem {
  date : string;
  lastSaleTime : option string;
  securityId : Z;
  securityLastPrice : option JS.number;
  securityPercentageChange : option JS.number;
  lastSellVolume : option JS.number;
  securityDailyAggVolume : option JS.number;
  securityDailyAggValue : option JS.number;
  securityDailyNumTrades : option JS.number
}.

Inductive IntradayTimeframe := TF_1m | TF_3m | TF_5m | TF_10m | TF_30m | TF_1h.

Definition TIMEFRAMES : list IntradayTimeframe :=
  [TF_1m; TF_3m; TF_5m; TF_10m; TF_30m; TF_1h].

Definition TIMEFRAME_MINUTES (tf : IntradayTimeframe) : Z :=
  match tf with
  | TF_1m => 1
  | TF_3m => 3
  | TF_5m => 5
  | TF_10m => 10
  | TF_30m => 30
  | TF_1h => 60
  end.

Record IntradayCandlestickWidgetData := mkData {
  symbol : string;
  data_securityId : Z;
  count : Z;
  items : list IntradayItem
}.

Record AggregatedCandle := mkCandle {
  time : Z;
  open : JS.number;
  high : JS.number;
  low : JS.number;
  close : JS.number;
  volume : JS.number
}.

Record LegendValues := mkLegend {
  lv_open : JS.number;
  lv_high : JS.number;
  lv_low : JS.number;
  lv_close : JS.number;
  change : option JS.number;
  lv_volume : JS.number
}.

(** The elements of the intermediate array [valid] of [aggregateCandles]. *)
Record Tick := mkTick {
  ts : Z;
  price : JS.number;
  tick_volume : JS.number
}.

(** ** Strings *)

(** [s.split("T")[0]]: the part of [s] before its first ["T"]. *)
Fixpoint split_T_head (s : string) : string :=
  match s with
  | EmptyString => EmptyString
  | String c s' =>
      if Ascii.eqb c "T"%char then EmptyString else String c (split_T_head s')
  end.

(** ** A host clock for the examples

    [Date_getTime_utc s] is [new Date(s).getTime()] on a host whose local
    time zone is UTC, for strings of the form [YYYY-MM-DDTHH:mm:ss]; [None]
    stands for NaN (an invalid date). *)

Definition digit_of (c : ascii) : option Z :=
  let n := Z.of_N (N_of_ascii c) in
  if (48 <=? n) && (n <=? 57) then Some (n - 48) else None.

Fixpoint digits_value (acc : Z) (l : list ascii) : option Z :=
  match l with
  | [] => Some acc
  | c :: l' =>
      match digit_of c with
      | Some d => digits_value (10 * acc + d) l'
      | None => None
      end
  end.

Definition days_from_civil (y m d : Z) : Z :=
  let y' := if m <=? 2 then y - 1 else y in
  let era := y' / 400 in
  let yoe := y' - era * 400 in
  let mp := if m <=? 2 then m + 9 else m - 3 in
  let doy := (153 * mp + 2) / 5 + d - 1 in
  let doe := yoe * 365 + yoe / 4 - yoe / 100 + doy in
  era * 146097 + doe - 719468.

Definition Date_getTime_utc (s : string) : option Z :=
  match list_ascii_of_string s with
  | [y1; y2; y3; y4; d1; m1; m2; d2; a1; a2; t; h1; h2; c1; n1; n2; c2; s1; s2] =>
      if Ascii.eqb d1 "-" && Ascii.eqb d2 "-" && Ascii.eqb t "T"
         && Ascii.eqb c1 ":" && Ascii.eqb c2 ":"
      then
        match digits_value 0 [y1; y2; y3; y4], digits_value 0 [m1; m2],
              digits_value 0 [a1; a2], digits_value 0 [h1; h2],
              digits_value 0 [n1; n2], digits_value 0 [s1; s2] with
        | Some y, Some m, Some d, Some hh, Some mm, Some ss =>
            if (1 <=? m) && (m <=? 12) && (1 <=? d) && (d <=? 31)
               && (hh <=? 23) && (mm <=? 59) && (ss <=? 59)
            then Some ((days_from_civil y m d * 86400
                        + hh * 3600 + mm * 60 + ss) * 1000)
            else None
        | _, _, _, _, _, _ => None
        end
      else None
  | _ => None
  end.

(** ** Stable sort

    [Array.prototype.sort] is stable.  The result of a stable sort is
    determined by the array and the comparator, whichever algorithm the
    engine runs; here it is computed by insertion, an element going before
    the later elements that compare equal to it. *)

Section StableSort.
Context {A : Type} (cmp : A -> A -> Z).

Fixpoint sort_insert (x : A) (l : list A) : list A :=
    match l with
    | [] => [x]
    | y :: l' => if cmp x y <=? 0 then x :: l else y :: sort_insert x l'
    end.

Fixpoint Array_sort (l : list A) : list A :=
    match l with
    | [] => []
    | x :: l' => sort_insert x (Array_sort l')
    end.
End StableSort.

(** [.filter((x) => x !== null)] *)
Fixpoint filter_nonnull {A : Type} (l : list (option A)) : list A :=
  match l with
  | [] => []
  | None :: l' => filter_nonnull l'
  | Some x :: l' => x :: filter_nonnull l'
  end.

(** ** Candle aggregation *)

Section Aggregation.

  (** [Date_getTime s] is [new Date(s).getTime()] in milliseconds, [None]
      when it is NaN.  The parser and the local time zone belong to the
      host, so the development is parametric in it. *)
Variable Date_getTime : string -> option Z.

  (** [Math.floor(dt.getTime() / 1000)]: the time value is an integer number
      of milliseconds of magnitude at most 8.64e15, for which the double
      quotient floors to the integer quotient. *)
Definition parseIntradayTime (item : IntradayItem) : option Z :=
    match lastSaleTime item with
    | None => None
    | Some t =>
        if negb (JS.truthy_string t) || negb (JS.truthy_string (date item))
        then None
        else
          let dateStr := split_T_head (date item) in
          match Date_getTime (dateStr +:+ "T" +:+ t) with
          | None => None
          | Some ms => Some (ms / 1000)
          end
    end.

  (** The callback of [items.map(...)]. *)
Definition to_tick (item : IntradayItem) : option Tick :=
    match parseIntradayTime item, securityLastPrice item with
    | Some t, Some p =>
        Some (mkTick t p (default JS.zero (lastSellVolume item)))
    | _, _ => None
    end.

  (** The array [valid]: map, filter, sort by [a.ts - b.ts]. *)
Definition valid (its : list IntradayItem) : list Tick :=
    Array_sort (fun a b => ts a - ts b) (filter_nonnull (map to_tick its)).

  (** [Math.floor(ts / bucketSeconds) * bucketSeconds] *)
Definition bucket_of (bucketSeconds t : Z) : Z :=
    (t / bucketSeconds) * bucketSeconds.

  (** The variables of the loop of [aggregateCandles]. *)
Record Loop := mkLoop {
    candles : list AggregatedCandle;
    currentBucket : Z;
    l_open : JS.number;
    l_high : JS.number;
    l_low : JS.number;
    l_close : JS.number;
    l_volume : JS.number
  }.

Definition loop_candle (st : Loop) : AggregatedCandle :=
    mkCandle (currentBucket st) (l_open st) (l_high st) (l_low st)
             (l_close st) (l_volume st).

Definition loop_init (bucketSeconds : Z) (t0 : Tick) : Loop :=
    mkLoop [] (bucket_of bucketSeconds (ts t0))
           (price t0) (price t0) (price t0) (price t0) (tick_volume t0).

Definition loop_body (bucketSeconds : Z) (st : Loop) (tick : Tick) : Loop :=
    let bucket := bucket_of bucketSeconds (ts tick) in
    if negb (bucket =? currentBucket st) then
      mkLoop (candles st ++ [loop_candle st]) bucket
             (price tick) (price tick) (price tick) (price tick)
             (tick_volume tick)
    else
      mkLoop (candles st) (currentBucket st)
             (l_open st)
             (JS.Math_max (l_high st) (price tick))
             (JS.Math_min (l_low st) (price tick))
             (price tick)
             (JS.add (l_volume st) (tick_volume tick)).

Definition aggregateCandles (its : list IntradayItem)
      (timeframe : IntradayTimeframe) : list AggregatedCandle :=
    let minutes := TIMEFRAME_MINUTES timeframe in
    let bucketSeconds := minutes * 60 in
    match valid its with
    | [] => []
    | v0 :: rest =>
        let st := fold_left (loop_body bucketSeconds) rest
                            (loop_init bucketSeconds v0) in
        candles st ++ [loop_candle st]
    end.

End Aggregation.

(** ** The aggregation as the specification words it

    Section 4.2 of the specification: a walk over the sorted ticks that
    keeps one accumulator [{start, open, high, low, close, volume}].  These
    definitions follow the specification's text; they are compared with
    [aggregateCandles] in the theorems. *)

Module Spec.

Record Accumulator := mkAcc {
  start : Z;
  a_open : JS.number;
  a_high : JS.number;
  a_low : JS.number;
  a_close : JS.number;
  a_volume : JS.number
}.

(** [1m→60, 3m→180, 5m→300, 10m→600, 30m→1800, 1h→3600] *)
Definition bucketLength (tf : IntradayTimeframe) : Z :=
  match tf with
  | TF_1m => 60
  | TF_3m => 180
  | TF_5m => 300
  | TF_10m => 600
  | TF_30m => 1800
  | TF_1h => 3600
  end.

(** [bucketStart(t) = floor(t.timestamp / bucketLength) * bucketLength] *)
Definition bucketStart (len : Z) (t : Tick) : Z := (ts t / len) * len.

(** open=high=low=close=price, volume=tick.volume *)
Definition seed (len : Z) (t : Tick) : Accumulator :=
  mkAcc (bucketStart len t) (price t) (price t) (price t) (price t)
        (tick_volume t).

(** high = max(high, price), low = min(low, price), close = price,
    volume += tick.volume *)
Definition absorb (a : Accumulator) (t : Tick) : Accumulator :=
  mkAcc (start a) (a_open a)
        (JS.Math_max (a_high a) (price t))
        (JS.Math_min (a_low a) (price t))
        (price t)
        (JS.add (a_volume a) (tick_volume t)).

Definition emit (a : Accumulator) : AggregatedCandle :=
  mkCandle (start a) (a_open a) (a_high a) (a_low a) (a_close a) (a_volume a).

Fixpoint walk (len : Z) (acc : option Accumulator) (ticks : list Tick)
    : list AggregatedCandle :=
  match ticks with
  | [] =>
      match acc with
      | None => []
      | Some a => [emit a]
      end
  | t :: ticks' =>
      match acc with
      | None => walk len (Some (seed len t)) ticks'
      | Some a =>
          if bucketStart len t =? start a
          then walk len (Some (absorb a t)) ticks'
          else emit a :: walk len (Some (seed len t)) ticks'
      end
  end.

Definition aggregate (ticks : list Tick) (tf : IntradayTimeframe)
    : list AggregatedCandle :=
  walk (bucketLength tf) None ticks.

End Spec.

(** ** Legend map and chart series *)

Record CandlestickData := mkBar {
  bar_time : Z;
  bar_open : JS.number;
  bar_high : JS.number;
  bar_low : JS.number;
  bar_close : JS.number
}.

Record HistogramData := mkHisto {
  histo_time : Z;
  value : JS.number;
  color : string
}.

Definition bar_of (c : AggregatedCandle) : CandlestickData :=
  mkBar (time c) (open c) (high c) (low c) (close c).

Definition histo_of (c : AggregatedCandle) : HistogramData :=
  mkHisto (time c) (volume c)
          (if JS.ge (close c) (open c)
           then "rgba(16, 185, 129, 0.4)"
           else "rgba(239, 68, 68, 0.4)").

(** The body of the loop that fills [legendMap]. *)
Definition legend_of (c : AggregatedCandle) : LegendValues :=
  let chg :=
    if JS.strict_neq (open c) JS.zero
    then Some (JS.mul (JS.div (JS.sub (close c) (open c)) (open c))
                      (JS.of_Z 100))
    else None in
  mkLegend (open c) (high c) (low c) (close c) chg (volume c).

Definition legend_map_of (cs : list AggregatedCandle) : gmap Z LegendValues :=
  fold_left (fun m c => <[time c := legend_of c]> m) cs ∅.

(** ** Tool results and their extraction

    A tool result is seen through the tests [extractIntradayData] makes on
    it.  [structuredContent], when present, either has an array [items] or
    not; a parsed JSON text is falsy, or a truthy value with or without a
    string field [text] and a truthy field [items].  In each case [as_data]
    is the value read through the interface
    [IntradayCandlestickWidgetData]. *)

Record StructuredContent := mkStructured {
  sc_items_is_array : bool;
  sc_as_data : IntradayCandlestickWidgetData
}.

Inductive ContentBlock :=
| TextContent (text : string)
| OtherContent.

Record CallToolResult := mkResult {
  structuredContent : option StructuredContent;
  content : option (list ContentBlock)
}.

Inductive ParsedJSON :=
| JSON_falsy
| JSON_truthy (text_field : option string) (items_truthy : bool)
              (as_data : IntradayCandlestickWidgetData).

(** [content?.find((c) => c.type === "text")] *)
Fixpoint find_text (l : list ContentBlock) : option string :=
  match l with
  | [] => None
  | TextContent s :: _ => Some s
  | OtherContent :: l' => find_text l'
  end.

Section Extraction.

(** [JSON.parse]; [None] when it throws. *)
Variable JSON_parse : string -> option ParsedJSON.

(** [return parsed as IntradayCandlestickWidgetData]; callers test the
    result for truthiness, so a falsy value counts as [null]. *)
Definition cast_parsed (p : ParsedJSON) : option IntradayCandlestickWidgetData :=
  match p with
  | JSON_falsy => None
  | JSON_truthy _ _ d => Some d
  end.

Definition extract_text (r : CallToolResult)
    : option IntradayCandlestickWidgetData :=
  match content r ≫= find_text with
  | None => None
  | Some txt =>
      match JSON_parse txt with
      | None => None
      | Some (JSON_truthy (Some inner) false _) =>
          match JSON_parse inner with
          | None => None
          | Some p => cast_parsed p
          end
      | Some p => cast_parsed p
      end
  end.

Definition extractIntradayData (callToolResult : option CallToolResult)
    : option IntradayCandlestickWidgetData :=
  match callToolResult with
  | None => None
  | Some r =>
      match structuredContent r with
      | Some sc =>
          if sc_items_is_array sc then Some (sc_as_data sc)
          else extract_text r
      | None => extract_text r
      end
  end.

End Extraction.

(** ** The widget as a state machine

    One record holds the React state of [IntradayCandlestickApp] and of
    [IntradayAppInner], the interval timer, and the calls made to
    [app.callServerTool] with the promises still pending.  An event handler
    is a function on this record; [step] runs a handler and then the
    effects, as React does after the render that follows the state
    updates. *)

(** [s.trim()].  A string holds the UTF-8 bytes of the text.  [trim]
    strips from both ends the white space and the line terminators of
    ECMAScript: U+0009 to U+000D and U+0020, of one byte; U+00A0, of two
    bytes; U+1680, U+2000 to U+200A, U+2028, U+2029, U+202F, U+205F,
    U+3000 and U+FEFF, of three bytes. *)
Definition is_white (c : ascii) : bool :=
  let n := Z.of_N (N_of_ascii c) in
  (n =? 32) || ((9 <=? n) && (n <=? 13)).

Definition is_white2 (c1 c2 : ascii) : bool :=
  (Z.of_N (N_of_ascii c1) =? 194) && (Z.of_N (N_of_ascii c2) =? 160).

Definition is_white3 (c1 c2 c3 : ascii) : bool :=
  let b1 := Z.of_N (N_of_ascii c1) in
  let b2 := Z.of_N (N_of_ascii c2) in
  let b3 := Z.of_N (N_of_ascii c3) in
  ((b1 =? 225) && (b2 =? 154) && (b3 =? 128))
  || ((b1 =? 226) && (b2 =? 128)
      && (((128 <=? b3) && (b3 <=? 138))
          || (b3 =? 168) || (b3 =? 169) || (b3 =? 175)))
  || ((b1 =? 226) && (b2 =? 129) && (b3 =? 159))
  || ((b1 =? 227) && (b2 =? 128) && (b3 =? 128))
  || ((b1 =? 239) && (b2 =? 187) && (b3 =? 191)).

(** The scan that drops the white space a string starts with; with
    [from_end] the string is a reversed one, whose characters have their
    bytes in reverse. *)
Fixpoint strip_white (from_end : bool) (s : string) : string :=
  match s with
  | EmptyString => EmptyString
  | String c1 s1 =>
      if is_white c1 then strip_white from_end s1
      else
        match s1 with
        | EmptyString => s
        | String c2 s2 =>
            if (if from_end then is_white2 c2 c1 else is_white2 c1 c2)
            then strip_white from_end s2
            else
              match s2 with
              | EmptyString => s
              | String c3 s3 =>
                  if (if from_end then is_white3 c3 c2 c1
                      else is_white3 c1 c2 c3)
                  then strip_white from_end s3
                  else s
              end
        end
  end.

Definition trim_start (s : string) : string := strip_white false s.

Definition trim (s : string) : string :=
  String.rev (strip_white true (String.rev (trim_start s))).

(** The value passed as [securityIdOrSymbol]. *)
Inductive Arg :=
| ArgSymbol (s : string)
| ArgSecurityId (n : Z).

Definition truthy_arg (a : Arg) : bool :=
  match a with
  | ArgSymbol s => JS.truthy_string s
  | ArgSecurityId n => negb (n =? 0)
  end.

(** Which code awaits the promise of a call. *)
Inductive Origin := AutoFetch | Refresh.

(** A call [app.callServerTool({ name, arguments })]; [arguments] is [{}]
    ([None]) or [{ securityIdOrSymbol }]. *)
Record ToolCall := mkCall {
  name : string;
  arguments : option Arg;
  origin : Origin
}.

Definition TOOL_NAME : string := "get-symbol-intraday-candlestick-data".

Inductive Outcome :=
| Fulfilled (result : CallToolResult)
| Rejected.

Record App := mkApp {
  callServerTool_is_function : bool
}.

(** [30 * 60 * 1000]: the period of the auto-refresh interval, in
    milliseconds.  Time is not modelled: while the interval exists, its
    callback ([IntervalTick] below) may run at any point. *)
Definition AUTO_REFRESH_INTERVAL : Z := 30 * 60 * 1000.

Record Widget := mkWidget {
  (* IntradayCandlestickApp; [host_app] is its [app], null until the
     connection to the host is established *)
  host_app : option App;
  data : option IntradayCandlestickWidgetData;
  needsAutoFetch : bool;
  (* IntradayAppInner *)
  symbolInput : string;
  selectedTimeframe : IntradayTimeframe;
  isRefreshing : bool;
  refreshError : option string;
  legendValues : option LegendValues;
  showVolume : bool;
  showCandles : bool;
  (* the interval of the auto-refresh effect, with the [securityId] its
     callback closes over *)
  interval : option Z;
  (* the calls to [callServerTool], oldest first, and the positions in
     [calls] of those whose promise is not settled *)
  calls : list ToolCall;
  pending : list nat
}.

Definition initial_widget : Widget :=
  mkWidget None None false "" TF_5m false None None true true None [] [].

Definition set_host_app (v : option App) (w : Widget) : Widget :=
  mkWidget v (data w) (needsAutoFetch w) (symbolInput w)
           (selectedTimeframe w) (isRefreshing w) (refreshError w)
           (legendValues w) (showVolume w) (showCandles w) (interval w)
           (calls w) (pending w).

Definition setData (v : option IntradayCandlestickWidgetData) (w : Widget)
    : Widget :=
  mkWidget (host_app w) v (needsAutoFetch w) (symbolInput w)
           (selectedTimeframe w) (isRefreshing w) (refreshError w)
           (legendValues w) (showVolume w) (showCandles w) (interval w)
           (calls w) (pending w).

Definition setNeedsAutoFetch (v : bool) (w : Widget) : Widget :=
  mkWidget (host_app w) (data w) v (symbolInput w)
           (selectedTimeframe w) (isRefreshing w) (refreshError w)
           (legendValues w) (showVolume w) (showCandles w) (interval w)
           (calls w) (pending w).

Definition setSymbolInput (v : string) (w : Widget) : Widget :=
  mkWidget (host_app w) (data w) (needsAutoFetch w) v
           (selectedTimeframe w) (isRefreshing w) (refreshError w)
           (legendValues w) (showVolume w) (showCandles w) (interval w)
           (calls w) (pending w).

Definition setSelectedTimeframe (v : IntradayTimeframe) (w : Widget) : Widget :=
  mkWidget (host_app w) (data w) (needsAutoFetch w) (symbolInput w)
           v (isRefreshing w) (refreshError w)
           (legendValues w) (showVolume w) (showCandles w) (interval w)
           (calls w) (pending w).

Definition setIsRefreshing (v : bool) (w : Widget) : Widget :=
  mkWidget (host_app w) (data w) (needsAutoFetch w) (symbolInput w)
           (selectedTimeframe w) v (refreshError w)
           (legendValues w) (showVolume w) (showCandles w) (interval w)
           (calls w) (pending w).

Definition setRefreshError (v : option string) (w : Widget) : Widget :=
  mkWidget (host_app w) (data w) (needsAutoFetch w) (symbolInput w)
           (selectedTimeframe w) (isRefreshing w) v
           (legendValues w) (showVolume w) (showCandles w) (interval w)
           (calls w) (pending w).

Definition setLegendValues (v : option LegendValues) (w : Widget) : Widget :=
  mkWidget (host_app w) (data w) (needsAutoFetch w) (symbolInput w)
           (selectedTimeframe w) (isRefreshing w) (refreshError w)
           v (showVolume w) (showCandles w) (interval w)
           (calls w) (pending w).

Definition setShowVolume (v : bool) (w : Widget) : Widget :=
  mkWidget (host_app w) (data w) (needsAutoFetch w) (symbolInput w)
           (selectedTimeframe w) (isRefreshing w) (refreshError w)
           (legendValues w) v (showCandles w) (interval w)
           (calls w) (pending w).

Definition setShowCandles (v : bool) (w : Widget) : Widget :=
  mkWidget (host_app w) (data w) (needsAutoFetch w) (symbolInput w)
           (selectedTimeframe w) (isRefreshing w) (refreshError w)
           (legendValues w) (showVolume w) v (interval w)
           (calls w) (pending w).

Definition set_interval (v : option Z) (w : Widget) : Widget :=
  mkWidget (host_app w) (data w) (needsAutoFetch w) (symbolInput w)
           (selectedTimeframe w) (isRefreshing w) (refreshError w)
           (legendValues w) (showVolume w) (showCandles w) v
           (calls w) (pending w).

(** [app.callServerTool({ name: TOOL_NAME, arguments })]: the call is
    recorded and its promise is pending. *)
Definition callServerTool (o : Origin) (args : option Arg) (w : Widget)
    : Widget :=
  mkWidget (host_app w) (data w) (needsAutoFetch w) (symbolInput w)
           (selectedTimeframe w) (isRefreshing w) (refreshError w)
           (legendValues w) (showVolume w) (showCandles w) (interval w)
           (calls w ++ [mkCall TOOL_NAME args o])
           (pending w ++ [length (calls w)]).

Definition settle (id : nat) (w : Widget) : Widget :=
  mkWidget (host_app w) (data w) (needsAutoFetch w) (symbolInput w)
           (selectedTimeframe w) (isRefreshing w) (refreshError w)
           (legendValues w) (showVolume w) (showCandles w) (interval w)
           (calls w)
           (List.filter (fun i => negb (Nat.eqb i id)) (pending w)).

Inductive Event :=
| AppConnected (a : App)
| ToolResult (result : CallToolResult)
| SymbolInputChange (s : string)
| RefreshButtonClick
| SymbolInputEnter
| TimeframeClick (tf : IntradayTimeframe)
| CrosshairMove (t : option Z)
| ShowCandlesChange (b : bool)
| ShowVolumeChange (b : bool)
| IntervalTick
| Settled (id : nat) (o : Outcome).

(** What the inner component shows below the controls. *)
Inductive Body :=
| WaitingForData
| NoIntradayData
| ChartShown (legend : option LegendValues)
             (series : option (list CandlestickData))
             (histogram : option (list HistogramData))
| Blank.

Inductive Screen :=
| Connecting
| Inner (error_banner : option string) (body : Body).

Section Lifecycle.

Variable Date_getTime : string -> option Z.
Variable JSON_parse : string -> option ParsedJSON.

(** *** Memoised derivations *)

Definition data_items (w : Widget) : list IntradayItem :=
  match data w with
  | Some d => items d
  | None => []
  end.

Definition widget_candles (w : Widget) : list AggregatedCandle :=
  aggregateCandles Date_getTime (data_items w) (selectedTimeframe w).

Definition candleData (w : Widget) : list CandlestickData :=
  match data_items w with
  | [] => []
  | _ :: _ => map bar_of (widget_candles w)
  end.

Definition volumeData (w : Widget) : list HistogramData :=
  match data_items w with
  | [] => []
  | _ :: _ => map histo_of (widget_candles w)
  end.

Definition legendMap (w : Widget) : gmap Z LegendValues :=
  match data w with
  | None => ∅
  | Some _ => legend_map_of (widget_candles w)
  end.

(** *** Handlers *)

Definition ontoolresult (result : CallToolResult) (w : Widget) : Widget :=
  match extractIntradayData JSON_parse (Some result) with
  | Some extracted => setData (Some extracted) w
  | None => setNeedsAutoFetch true w
  end.

Definition handleRefresh (securityIdOrSymbol : option Arg) (w : Widget)
    : Widget :=
  let w1 := setRefreshError None (setIsRefreshing true w) in
  let args :=
    match securityIdOrSymbol with
    | Some a => if truthy_arg a then Some a else None
    | None => None
    end in
  callServerTool Refresh args w1.

(** The rest of [handleRefresh], run when the awaited promise settles. *)
Definition handleRefresh_resume (o : Outcome) (w : Widget) : Widget :=
  let w1 :=
    match o with
    | Fulfilled result =>
        match extractIntradayData JSON_parse (Some result) with
        | Some fetched => setLegendValues None (setData (Some fetched) w)
        | None => setRefreshError (Some "No data found") w
        end
    | Rejected => setRefreshError (Some "Failed to fetch data") w
    end in
  setIsRefreshing false w1.

(** The [.then] and [.catch] of the auto-fetch call. *)
Definition autofetch_resume (o : Outcome) (w : Widget) : Widget :=
  match o with
  | Fulfilled result =>
      match extractIntradayData JSON_parse (Some result) with
      | Some fetched => setData (Some fetched) w
      | None => w
      end
  | Rejected => w
  end.

Definition handleRefreshClick (w : Widget) : Widget :=
  if JS.truthy_string (trim (symbolInput w))
  then handleRefresh (Some (ArgSymbol (trim (symbolInput w)))) w
  else w.

Definition last_legend (w : Widget) : Widget :=
  match last (candleData w) with
  | Some bar =>
      match legendMap w !! bar_time bar with
      | Some values => setLegendValues (Some values) w
      | None => w
      end
  | None => w
  end.

Definition handleCrosshairMove (t : option Z) (w : Widget) : Widget :=
  let hit :=
    match t with
    | Some t' => if t' =? 0 then None else legendMap w !! t'
    | None => None
    end in
  match hit with
  | Some values => setLegendValues (Some values) w
  | None => last_legend w
  end.

Definition chart_rendered (w : Widget) : bool :=
  match data w, candleData w with
  | Some _, _ :: _ => true
  | _, _ => false
  end.

Definition on_settled (id : nat) (o : Outcome) (w : Widget) : Widget :=
  if existsb (Nat.eqb id) (pending w) then
    match calls w !! id with
    | Some c =>
        match origin c with
        | Refresh => handleRefresh_resume o (settle id w)
        | AutoFetch => autofetch_resume o (settle id w)
        end
    | None => w
    end
  else w.

(** The events a user or a timer can raise exist only while
    [IntradayAppInner] is mounted, that is once [app] is non-null; the
    Refresh and timeframe buttons are [disabled] while [isRefreshing]. *)
Definition handle (ev : Event) (w : Widget) : Widget :=
  match ev with
  | AppConnected a =>
      match host_app w with
      | None => set_host_app (Some a) w
      | Some _ => w
      end
  | ToolResult result => ontoolresult result w
  | Settled id o => on_settled id o w
  | _ =>
      match host_app w with
      | None => w
      | Some _ =>
          match ev with
          | SymbolInputChange s => setSymbolInput s w
          | RefreshButtonClick =>
              if isRefreshing w then w else handleRefreshClick w
          | SymbolInputEnter => handleRefreshClick w
          | TimeframeClick tf =>
              if isRefreshing w then w
              else setLegendValues None (setSelectedTimeframe tf w)
          | CrosshairMove t =>
              if chart_rendered w then handleCrosshairMove t w else w
          | ShowCandlesChange b => setShowCandles b w
          | ShowVolumeChange b => setShowVolume b w
          | IntervalTick =>
              match interval w with
              | Some id => handleRefresh (Some (ArgSecurityId id)) w
              | None => w
              end
          | _ => w
          end
      end
  end.

(** *** Effects *)

(** "Set default legend to last bar" *)
Definition default_legend_effect (w : Widget) : Widget :=
  match legendValues w with
  | None => last_legend w
  | Some _ => w
  end.

(** "Sync symbol input with data" *)
Definition symbol_sync_effect (w : Widget) : Widget :=
  match data w with
  | Some d =>
      if JS.truthy_string (symbol d) && negb (JS.truthy_string (symbolInput w))
      then setSymbolInput (symbol d) w
      else w
  | None => w
  end.

(** "Auto-refresh every 30 minutes": the interval exists while
    [data?.symbol] is truthy and is re-created when [data.symbol] or
    [data.securityId] changes. *)
Definition interval_effect (w : Widget) : Widget :=
  set_interval
    match data w with
    | Some d => if JS.truthy_string (symbol d) then Some (data_securityId d)
                else None
    | None => None
    end w.

Definition inner_effects (w : Widget) : Widget :=
  match host_app w with
  | None => w
  | Some _ => interval_effect (symbol_sync_effect (default_legend_effect w))
  end.

(** "Auto-fetch fallback" *)
Definition autofetch_effect (w : Widget) : Widget :=
  match host_app w with
  | Some a =>
      if needsAutoFetch w then
        let w1 := setNeedsAutoFetch false w in
        if callServerTool_is_function a
        then callServerTool AutoFetch None w1
        else w1
      else w
  | None => w
  end.

Definition run_effects (w : Widget) : Widget :=
  autofetch_effect (inner_effects w).

Definition step (w : Widget) (ev : Event) : Widget :=
  run_effects (handle ev w).

Definition run (evs : list Event) : Widget :=
  fold_left step evs initial_widget.

Inductive reachable : Widget -> Prop :=
| reachable_initial : reachable initial_widget
| reachable_step w ev : reachable w -> reachable (step w ev).

(** *** Rendering *)

Definition render (w : Widget) : Screen :=
  match host_app w with
  | None => Connecting
  | Some _ =>
      Inner (refreshError w)
        match data w, refreshError w with
        | None, None => WaitingForData
        | None, Some _ => Blank
        | Some _, _ =>
            match candleData w with
            | [] => NoIntradayData
            | _ :: _ =>
                ChartShown (legendValues w)
                  (if showCandles w then Some (candleData w) else None)
                  (if showVolume w then Some (volumeData w) else None)
            end
        end
  end.

(** The number of requests in flight. *)
Definition in_flight (w : Widget) : nat := length (pending w).

(** *** What the effects leave in the fields they write *)

Definition default_legend (w : Widget) : option LegendValues :=
  match legendValues w with
  | Some v => Some v
  | None =>
      match last (candleData w) with
      | Some bar => legendMap w !! bar_time bar
      | None => None
      end
  end.

Definition synced_symbol (w : Widget) : string :=
  match data w with
  | Some d =>
      if JS.truthy_string (symbol d) && negb (JS.truthy_string (symbolInput w))
      then symbol d
      else symbolInput w
  | None => symbolInput w
  end.

Definition interval_for (w : Widget) : option Z :=
  match data w with
  | Some d => if JS.truthy_string (symbol d) then Some (data_securityId d)
              else None
  | None => None
  end.

(** *** Failed requests *)

(** A request fails when its promise rejects or its result yields no
    payload. *)
Definition fetch_failed (o : Outcome) : Prop :=
  o = Rejected
  \/ exists r, o = Fulfilled r /\ extractIntradayData JSON_parse (Some r) = None.

(** The message [handleRefresh] then passes to [setRefreshError]. *)
Definition failure_message (o : Outcome) : string :=
  match o with
  | Rejected => "Failed to fetch data"
  | Fulfilled _ => "No data found"
  end.

(** *** The fallback fetch

    The state [w1] reached from [w] when the one fallback call has been
    made, and what its failure leaves. *)

Definition fallback_issued (w w1 : Widget) : Prop :=
  calls w1 = calls w ++ [mkCall TOOL_NAME None AutoFetch]
  /\ pending w1 = pending w ++ [length (calls w)]
  /\ needsAutoFetch w1 = false
  /\ data w1 = data w
  /\ refreshError w1 = refreshError w.

Definition fallback_failure_silent (w w1 : Widget) : Prop :=
  forall o,
    fetch_failed o ->
    let w2 := step w1 (Settled (length (calls w)) o) in
    calls w2 = calls w1
    /\ needsAutoFetch w2 = false
    /\ data w2 = data w
    /\ refreshError w2 = refreshError w
    /\ (data w = None -> refreshError w = None ->
        render w1 = Inner None WaitingForData
        /\ render w2 = Inner None WaitingForData).

End Lifecycle.

(** ** Notions used in the statements *)

(** The comparator [(a, b) => a.ts - b.ts], the order it sorts by, and the
    test that selects the ticks of one timestamp. *)
Definition ts_cmp (a b : Tick) : Z := ts a - ts b.
Definition ts_le (a b : Tick) : Prop := ts a <= ts b.

(** The loop variables seen as the accumulator of the specification. *)
Definition acc_of (st : Loop) : Spec.Accumulator :=
  Spec.mkAcc (currentBucket st) (l_open st) (l_high st) (l_low st)
             (l_close st) (l_volume st).

(** The OHLC invariant of a candle, in the comparisons of JavaScript. *)
Definition OHLC (c : AggregatedCandle) : Prop :=
  JS.le (low c) (JS.Math_min (open c) (close c)) = true
  /\ JS.ge (high c) (JS.Math_max (open c) (close c)) = true.

(** What the accumulator maintains: no field is NaN and
    [low <= open, close <= high]. *)
Definition acc_ok (a : Spec.Accumulator) : Prop :=
  (JS.isNaN (Spec.a_open a) = false /\ JS.isNaN (Spec.a_high a) = false
   /\ JS.isNaN (Spec.a_low a) = false /\ JS.isNaN (Spec.a_close a) = false)
  /\ JS.le (Spec.a_low a) (Spec.a_open a) = true
  /\ JS.le (Spec.a_low a) (Spec.a_close a) = true
  /\ JS.le (Spec.a_open a) (Spec.a_high a) = true
  /\ JS.le (Spec.a_close a) (Spec.a_high a) = true.

(** The prices of an array of items, none of which is NaN: what a payload
    decoded from JSON can hold. *)
Definition prices_not_NaN (its : list IntradayItem) : Prop :=
  forall it p, In it its -> securityLastPrice it = Some p -> JS.isNaN p = false.

(** *** The ticks of a bucket

    The valid ticks whose bucket start is [k], in the order of [valid]. *)
Definition in_bucket (bucketSeconds k : Z) (t : Tick) : bool :=
  bucket_of bucketSeconds (ts t) =? k.

Definition bucket_ticks (bucketSeconds k : Z) (ticks : list Tick) : list Tick :=
  List.filter (in_bucket bucketSeconds k) ticks.

Definition not_NaN (p : JS.number) : Prop := JS.isNaN p = false.

(** What the loop has accumulated with [f] over the values [xs] of the
    ticks of a bucket, when there are any. *)
Definition so_far (f : JS.number -> JS.number -> JS.number)
    (xs : list JS.number) : option JS.number :=
  match xs with
  | [] => None
  | x0 :: r => Some (fold_left f r x0)
  end.

(** An item whose [date] is replaced by [d]. *)
Definition with_date (d : string) (it : IntradayItem) : IntradayItem :=
  mkItem d (lastSaleTime it) (securityId it) (securityLastPrice it)
         (securityPercentageChange it) (lastSellVolume it)
         (securityDailyAggVolume it) (securityDailyAggValue it)
         (securityDailyNumTrades it).

(** *** Requests and their bookkeeping

    A refresh is pending when some pending promise belongs to a call made
    by [handleRefresh].  [bookkeeping] relates [isRefreshing] to the calls
    and the pending promises, and [transition] lists the ways a handler or
    an effect changes them: not at all, by one more call, or by settling
    one promise. *)
Definition refresh_pending (w : Widget) : Prop :=
  exists id c, In id (pending w) /\ calls w !! id = Some c /\ origin c = Refresh.

Definition bookkeeping (w : Widget) : Prop :=
  Forall (fun id => (id < length (calls w))%nat) (pending w)
  /\ (isRefreshing w = true -> refresh_pending w).

Inductive transition (w w' : Widget) : Prop :=
| tr_same :
    calls w' = calls w -> pending w' = pending w ->
    isRefreshing w' = isRefreshing w -> transition w w'
| tr_call c :
    calls w' = calls w ++ [c] ->
    pending w' = pending w ++ [length (calls w)] ->
    (isRefreshing w' = isRefreshing w \/ origin c = Refresh) ->
    transition w w'
| tr_settle id c :
    calls w' = calls w ->
    pending w' = List.filter (fun i => negb (Nat.eqb i id)) (pending w) ->
    calls w !! id = Some c ->
    (isRefreshing w' = false
     \/ (isRefreshing w' = isRefreshing w /\ origin c = AutoFetch)) ->
    transition w w'.


(** The event that sets [app]. *)
Definition is_connection (ev : Event) : bool :=
  match ev with
  | AppConnected _ => true
  | _ => false
  end.

(** *** Scenario 1 of the specification

    The ticks [(09:30:00, 100, 10)], [(09:31:30, 101, 5)] and
    [(09:35:00, 99, 7)] of 2026-03-01, as raw items and as normalised
    ticks. *)

Definition scenario_item (hms : string) (p v : Z) : IntradayItem :=
  mkItem "2026-03-01" (Some hms) 1 (Some (JS.of_Z p)) None
         (Some (JS.of_Z v)) None None None.

Definition scenario_items : list IntradayItem :=
  [scenario_item "09:30:00" 100 10;
   scenario_item "09:31:30" 101 5;
   scenario_item "09:35:00" 99 7].

(** Unix seconds of a time of day of the scenario, on the UTC host. *)
Definition scenario_time (hms : string) : Z :=
  default 0 (Date_getTime_utc ("2026-03-01T" +:+ hms)) / 1000.

Definition scenario_tick (hms : string) (p v : Z) : Tick :=
  mkTick (scenario_time hms) (JS.of_Z p) (JS.of_Z v).

Definition scenario_ticks : list Tick :=
  [scenario_tick "09:30:00" 100 10;
   scenario_tick "09:31:30" 101 5;
   scenario_tick "09:35:00" 99 7].

Definition scenario_candle (hms : string) (o h l c v : Z) : AggregatedCandle :=
  mkCandle (scenario_time hms) (JS.of_Z o) (JS.of_Z h) (JS.of_Z l)
           (JS.of_Z c) (JS.of_Z v).

(** The second tick of the scenario with a null [lastSellVolume]. *)
Definition null_volume_item : IntradayItem :=
  mkItem "2026-03-01" (Some "09:31:30") 1 (Some (JS.of_Z 101)) None None
         None None None.

(** The scenario with that tick in place of the second one. *)
Definition null_volume_items : list IntradayItem :=
  [scenario_item "09:30:00" 100 10;
   null_volume_item;
   scenario_item "09:35:00" 99 7].

(** *** A widget for the examples

    A host in UTC whose [JSON.parse] is never reached (the results below
    carry [structuredContent] or no content at all), the payload of
    scenario 1 for the security TEVA, and the widget after the host has
    connected, after it has delivered that payload, and after the user has
    then pressed Refresh. *)

Definition JSON_parse_throws (s : string) : option ParsedJSON := None.

Definition loaded_result : CallToolResult :=
  mkResult (Some (mkStructured true (mkData "TEVA" 629014 3 scenario_items)))
           None.

Definition empty_result : CallToolResult := mkResult None None.

Definition connected_widget : Widget :=
  run Date_getTime_utc JSON_parse_throws [AppConnected (mkApp true)].

Definition loaded_widget : Widget :=
  run Date_getTime_utc JSON_parse_throws
      [AppConnected (mkApp true); ToolResult loaded_result].

Definition refreshing_widget : Widget :=
  run Date_getTime_utc JSON_parse_throws
      [AppConnected (mkApp true); ToolResult loaded_result; RefreshButtonClick].


Definition no_items_result : CallToolResult :=
  mkResult (Some (mkStructured true (mkData "TEVA" 629014 0 []))) None.

Definition fallback_widget : Widget :=
  run Date_getTime_utc JSON_parse_throws
      [AppConnected (mkApp true); ToolResult empty_result].


(** * Properties *)

(** ** Order facts on numbers that are not NaN *)

Ltac compare_cases :=
  repeat match goal with
    | H : context [Z.compare ?a ?b] |- _ => destruct (Z.compare_spec a b)
    | |- context [Z.compare ?a ?b] => destruct (Z.compare_spec a b)
    | H : context [Pos.compare ?a ?b] |- _ => destruct (Pos.compare_spec a b)
    | |- context [Pos.compare ?a ?b] => destruct (Pos.compare_spec a b)
    end.

Ltac float_order :=
  unfold JS.le, JS.ge, JS.gt, SFleb, SFltb, SFeqb, SFcompare in *;
  change (Pos.compare_cont Eq) with Pos.compare in *;
  repeat match goal with
    | s : bool |- _ => destruct s
    end;
  simpl in *; try reflexivity; try discriminate;
  compare_cases; simpl in *;
  try reflexivity; try discriminate; try lia.

Lemma le_refl (x : JS.number) : JS.isNaN x = false -> JS.le x x = true.
Proof. destruct x; intros Hx; float_order. Qed.

Lemma le_trans (x y z : JS.number) :
  JS.le x y = true -> JS.le y z = true -> JS.le x z = true.
Proof. destruct x, y, z; intros Hxy Hyz; float_order. Qed.

Lemma not_lt_le (x y : JS.number) :
  JS.isNaN x = false -> JS.isNaN y = false ->
  SFltb x y = false -> JS.le y x = true.
Proof. destruct x, y; intros Hx Hy Hlt; float_order. Qed.

Lemma lt_le (x y : JS.number) : SFltb x y = true -> JS.le x y = true.
Proof. destruct x, y; intros Hlt; float_order. Qed.

Lemma Math_max_cases (x y : JS.number) :
  JS.isNaN x = false -> JS.isNaN y = false ->
  JS.Math_max x y = x \/ JS.Math_max x y = y.
Proof.
  intros Hx Hy. unfold JS.Math_max. rewrite Hx, Hy. simpl.
  destruct (SFltb x y); [now right|].
  destruct x as [[]| | |], y as [[]| | |]; auto.
Qed.

Lemma Math_min_cases (x y : JS.number) :
  JS.isNaN x = false -> JS.isNaN y = false ->
  JS.Math_min x y = x \/ JS.Math_min x y = y.
Proof.
  intros Hx Hy. unfold JS.Math_min. rewrite Hx, Hy. simpl.
  destruct (SFltb y x); [now right|].
  destruct x as [[]| | |], y as [[]| | |]; auto.
Qed.

Lemma Math_max_not_NaN (x y : JS.number) :
  JS.isNaN x = false -> JS.isNaN y = false -> JS.isNaN (JS.Math_max x y) = false.
Proof.
  intros Hx Hy. destruct (Math_max_cases x y Hx Hy) as [-> | ->]; assumption.
Qed.

Lemma Math_min_not_NaN (x y : JS.number) :
  JS.isNaN x = false -> JS.isNaN y = false -> JS.isNaN (JS.Math_min x y) = false.
Proof.
  intros Hx Hy. destruct (Math_min_cases x y Hx Hy) as [-> | ->]; assumption.
Qed.

Lemma Math_max_ge_l (x y : JS.number) :
  JS.isNaN x = false -> JS.isNaN y = false -> JS.le x (JS.Math_max x y) = true.
Proof.
  intros Hx Hy. unfold JS.Math_max. rewrite Hx, Hy. simpl.
  destruct (SFltb x y) eqn:Hlt; [now apply lt_le|].
  destruct x as [[]| | |], y as [[]| | |]; try discriminate;
    reflexivity || float_order.
Qed.

Lemma Math_max_ge_r (x y : JS.number) :
  JS.isNaN x = false -> JS.isNaN y = false -> JS.le y (JS.Math_max x y) = true.
Proof.
  intros Hx Hy. unfold JS.Math_max. rewrite Hx, Hy. simpl.
  destruct (SFltb x y) eqn:Hlt; [now apply le_refl|].
  pose proof (not_lt_le x y Hx Hy Hlt) as Hle.
  destruct x as [[]| | |], y as [[]| | |]; try discriminate;
    exact Hle || reflexivity.
Qed.

Lemma Math_min_le_l (x y : JS.number) :
  JS.isNaN x = false -> JS.isNaN y = false -> JS.le (JS.Math_min x y) x = true.
Proof.
  intros Hx Hy. unfold JS.Math_min. rewrite Hx, Hy. simpl.
  destruct (SFltb y x) eqn:Hlt; [now apply lt_le|].
  destruct x as [[]| | |], y as [[]| | |]; try discriminate;
    reflexivity || float_order.
Qed.

Lemma Math_min_le_r (x y : JS.number) :
  JS.isNaN x = false -> JS.isNaN y = false -> JS.le (JS.Math_min x y) y = true.
Proof.
  intros Hx Hy. unfold JS.Math_min. rewrite Hx, Hy. simpl.
  destruct (SFltb y x) eqn:Hlt; [now apply le_refl|].
  pose proof (not_lt_le y x Hy Hx Hlt) as Hle.
  destruct x as [[]| | |], y as [[]| | |]; try discriminate;
    exact Hle || reflexivity.
Qed.

(** ** The stable sort *)

Lemma sort_insert_perm (x : Tick) (l : list Tick) :
  Permutation (sort_insert ts_cmp x l) (x :: l).
Proof.
  induction l as [|y l IH]; simpl; [reflexivity|].
  destruct (ts_cmp x y <=? 0); [reflexivity|].
  rewrite IH. apply perm_swap.
Qed.

Lemma Array_sort_perm (l : list Tick) : Permutation (Array_sort ts_cmp l) l.
Proof.
  induction l as [|x l IH]; simpl; [reflexivity|].
  rewrite sort_insert_perm. now constructor.
Qed.

Lemma sort_insert_sorted (x : Tick) (l : list Tick) :
  Sorted ts_le l -> Sorted ts_le (sort_insert ts_cmp x l).
Proof.
  induction l as [|y l IH]; simpl; intros Hs.
  - repeat constructor.
  - destruct (Z.leb_spec (ts_cmp x y) 0) as [Hle|Hgt].
    + constructor; [assumption|]. constructor. unfold ts_le, ts_cmp in *. lia.
    + inversion Hs as [|? ? Hl Hhd]; subst.
      constructor; [now apply IH|].
      destruct l as [|z l]; simpl.
      * constructor. unfold ts_le, ts_cmp in *. lia.
      * inversion Hhd; subst.
        destruct (ts_cmp x z <=? 0); constructor;
          unfold ts_le, ts_cmp in *; lia || assumption.
Qed.

Lemma Array_sort_sorted (l : list Tick) : Sorted ts_le (Array_sort ts_cmp l).
Proof.
  induction l as [|x l IH]; simpl; [constructor|].
  now apply sort_insert_sorted.
Qed.



Lemma Array_sort_sorted_id (l : list Tick) :
  Sorted ts_le l -> Array_sort ts_cmp l = l.
Proof.
  induction l as [|x l IH]; [reflexivity|].
  intros Hs. inversion Hs as [|? ? Hl Hhd]; subst.
  cbn [Array_sort]. rewrite (IH Hl).
  destruct Hhd as [|y l' Hxy]; [reflexivity|].
  cbn [sort_insert].
  destruct (Z.leb_spec (ts_cmp x y) 0); [reflexivity|].
  unfold ts_le, ts_cmp in *. lia.
Qed.

Lemma filter_nonnull_Some {A : Type} (l : list A) :
  filter_nonnull (map Some l) = l.
Proof. induction l as [|x l IH]; simpl; congruence. Qed.

Lemma filter_nonnull_In {A B : Type} (f : A -> option B) (l : list A) (y : B) :
  In y (filter_nonnull (map f l)) <-> exists x, In x l /\ f x = Some y.
Proof.
  induction l as [|x l IH]; simpl.
  - split; [tauto | intros (? & [] & _)].
  - destruct (f x) as [z|] eqn:Hfx; simpl; rewrite IH; split.
    + intros [<- | (x' & Hin & Hx')]; eauto.
    + intros (x' & [<- | Hin] & Hx'); [left; congruence | eauto].
    + intros (x' & Hin & Hx'); eauto.
    + intros (x' & [<- | Hin] & Hx'); [congruence | eauto].
Qed.

Lemma filter_nonnull_all_None {A B : Type} (f : A -> option B) (l : list A) :
  (forall x, In x l -> f x = None) -> filter_nonnull (map f l) = [].
Proof.
  induction l as [|x l IH]; simpl; intros H; [reflexivity|].
  rewrite (H x) by auto. apply IH. auto.
Qed.

(** ** The loop of [aggregateCandles] and the walk of the specification *)

Lemma bucketLength_minutes (tf : IntradayTimeframe) :
  TIMEFRAME_MINUTES tf * 60 = Spec.bucketLength tf.
Proof. destruct tf; reflexivity. Qed.

Lemma bucketLength_pos (tf : IntradayTimeframe) : 0 < Spec.bucketLength tf.
Proof. destruct tf; reflexivity. Qed.

Lemma loop_walk (len : Z) (rest : list Tick) (st : Loop) :
  let st' := fold_left (loop_body len) rest st in
  candles st' ++ [loop_candle st']
  = candles st ++ Spec.walk len (Some (acc_of st)) rest.
Proof.
  revert st. induction rest as [|t rest IH]; intros st; [reflexivity|].
  cbn [fold_left Spec.walk]. cbv zeta in IH. rewrite IH. clear IH.
  unfold loop_body, Spec.bucketStart, bucket_of. cbn [acc_of Spec.start].
  destruct (ts t / len * len =? currentBucket st); cbn [negb candles].
  - reflexivity.
  - rewrite <- app_assoc. reflexivity.
Qed.

Section AggregationFacts.

Variable Date_getTime : string -> option Z.

Lemma valid_unfold (its : list IntradayItem) :
  valid Date_getTime its
  = Array_sort ts_cmp (filter_nonnull (map (to_tick Date_getTime) its)).
Proof. reflexivity. Qed.

Lemma aggregateCandles_walk (its : list IntradayItem) (tf : IntradayTimeframe) :
  aggregateCandles Date_getTime its tf
  = Spec.aggregate (valid Date_getTime its) tf.
Proof.
  unfold aggregateCandles, Spec.aggregate. rewrite bucketLength_minutes.
  destruct (valid Date_getTime its) as [|v0 rest]; [reflexivity|].
  cbv zeta. rewrite loop_walk. reflexivity.
Qed.

Lemma valid_sorted (its : list IntradayItem) :
  Sorted ts_le (valid Date_getTime its).
Proof. rewrite valid_unfold. apply Array_sort_sorted. Qed.

Lemma valid_In (its : list IntradayItem) (t : Tick) :
  In t (valid Date_getTime its)
  <-> exists it, In it its /\ to_tick Date_getTime it = Some t.
Proof.
  rewrite valid_unfold, <- filter_nonnull_In.
  split; apply Permutation_in;
    [apply Array_sort_perm | symmetry; apply Array_sort_perm].
Qed.

End AggregationFacts.

(** ** Facts about the walk *)

Section WalkFacts.

Variable len : Z.
Hypothesis len_pos : 0 < len.

Lemma bucketStart_mono (a b : Tick) :
  ts_le a b -> Spec.bucketStart len a <= Spec.bucketStart len b.
Proof.
  unfold ts_le, Spec.bucketStart. intros Hab.
  apply Z.mul_le_mono_nonneg_r; [lia|].
  apply Z.div_le_mono; lia.
Qed.

Lemma walk_times (ticks : list Tick) (a : Spec.Accumulator) :
  StronglySorted ts_le ticks ->
  Forall (fun t => Spec.start a <= Spec.bucketStart len t) ticks ->
  StronglySorted Z.lt (map time (Spec.walk len (Some a) ticks))
  /\ Forall (fun c => Spec.start a <= time c) (Spec.walk len (Some a) ticks).
Proof.
  revert a. induction ticks as [|t ticks IH]; intros a Hs Hge.
  - cbn. split; repeat constructor. cbn. lia.
  - apply StronglySorted_inv in Hs as [Hs Hall].
    apply Forall_cons_iff in Hge as [Ht Hge].
    cbn [Spec.walk].
    destruct (Z.eqb_spec (Spec.bucketStart len t) (Spec.start a)) as [Heq|Hne].
    + apply (IH (Spec.absorb a t) Hs). exact Hge.
    + assert (Hseed : Forall (fun t' => Spec.start (Spec.seed len t)
                                        <= Spec.bucketStart len t') ticks).
      { eapply Forall_impl; [exact Hall|].
        intros t' Htt'. cbn. now apply bucketStart_mono. }
      destruct (IH (Spec.seed len t) Hs Hseed) as [IH1 IH2].
      cbn [map Spec.emit time]. split.
      * constructor; [exact IH1|].
        apply Forall_map. eapply Forall_impl; [exact IH2|].
        cbn. intros c Hc. lia.
      * constructor; [cbn; lia|].
        eapply Forall_impl; [exact IH2|]. cbn. intros c Hc. lia.
Qed.

Lemma walk_aligned (ticks : list Tick) (acc : option Spec.Accumulator)
    (c : AggregatedCandle) :
  In c (Spec.walk len acc ticks) ->
  (exists t, In t ticks /\ time c = Spec.bucketStart len t)
  \/ (exists a, acc = Some a /\ time c = Spec.start a).
Proof.
  revert acc. induction ticks as [|t ticks IH]; intros acc Hin.
  - destruct acc as [a|]; [|destruct Hin].
    destruct Hin as [<- | []]. right. now exists a.
  - cbn [Spec.walk] in Hin. destruct acc as [a|].
    + destruct (Spec.bucketStart len t =? Spec.start a).
      * apply IH in Hin as [(t' & Hin & Ht') | (a' & [= <-] & Ha')].
        -- left. exists t'. split; [now right | exact Ht'].
        -- right. now exists a.
      * destruct Hin as [<- | Hin]; [right; now exists a|].
        apply IH in Hin as [(t' & Hin & Ht') | (a' & [= <-] & Ha')].
        -- left. exists t'. split; [now right | exact Ht'].
        -- left. exists t. split; [now left | exact Ha'].
    + apply IH in Hin as [(t' & Hin & Ht') | (a' & [= <-] & Ha')].
      * left. exists t'. split; [now right | exact Ht'].
      * left. exists t. split; [now left | exact Ha'].
Qed.

End WalkFacts.

(** ** The OHLC invariant of the accumulator *)

Lemma acc_ok_emit (a : Spec.Accumulator) : acc_ok a -> OHLC (Spec.emit a).
Proof.
  intros ((Ho & Hh & Hl & Hc) & Hlo & Hlc & Hoh & Hch).
  unfold OHLC, JS.ge. cbn [Spec.emit low open close high]. split.
  - destruct (Math_min_cases _ _ Ho Hc) as [-> | ->]; assumption.
  - destruct (Math_max_cases _ _ Ho Hc) as [-> | ->]; assumption.
Qed.

Lemma acc_ok_seed (len : Z) (t : Tick) :
  JS.isNaN (price t) = false -> acc_ok (Spec.seed len t).
Proof.
  intros Hp. unfold acc_ok.
  cbn [Spec.seed Spec.a_open Spec.a_high Spec.a_low Spec.a_close].
  repeat split; try assumption; now apply le_refl.
Qed.

Lemma acc_ok_absorb (a : Spec.Accumulator) (t : Tick) :
  acc_ok a -> JS.isNaN (price t) = false -> acc_ok (Spec.absorb a t).
Proof.
  intros ((Ho & Hh & Hl & Hc) & Hlo & Hlc & Hoh & Hch) Hp.
  unfold acc_ok.
  cbn [Spec.absorb Spec.a_open Spec.a_high Spec.a_low Spec.a_close].
  split; [split; [|split; [|split]] | split; [|split; [|split]]].
  - assumption.
  - now apply Math_max_not_NaN.
  - now apply Math_min_not_NaN.
  - assumption.
  - eapply le_trans; [now apply Math_min_le_l | assumption].
  - now apply Math_min_le_r.
  - eapply le_trans; [eassumption | now apply Math_max_ge_l].
  - now apply Math_max_ge_r.
Qed.

Lemma walk_OHLC (len : Z) (ticks : list Tick) (acc : option Spec.Accumulator) :
  Forall (fun t => JS.isNaN (price t) = false) ticks ->
  (forall a, acc = Some a -> acc_ok a) ->
  Forall OHLC (Spec.walk len acc ticks).
Proof.
  revert acc. induction ticks as [|t ticks IH]; intros acc Hp Hacc.
  - destruct acc as [a|]; cbn [Spec.walk]; [|constructor].
    constructor; [|constructor]. apply acc_ok_emit. now apply Hacc.
  - apply Forall_cons_iff in Hp as [Ht Hp].
    cbn [Spec.walk]. destruct acc as [a|].
    + destruct (Spec.bucketStart len t =? Spec.start a).
      * apply IH; [exact Hp|]. intros a' [= <-].
        apply acc_ok_absorb; [now apply Hacc | exact Ht].
      * constructor; [apply acc_ok_emit; now apply Hacc|].
        apply IH; [exact Hp|]. intros a' [= <-]. now apply acc_ok_seed.
    + apply IH; [exact Hp|]. intros a' [= <-]. now apply acc_ok_seed.
Qed.

Lemma to_tick_price (D : string -> option Z) (it : IntradayItem) (t : Tick) :
  to_tick D it = Some t -> securityLastPrice it = Some (price t).
Proof.
  unfold to_tick.
  destruct (parseIntradayTime D it), (securityLastPrice it); intros [= <-].
  reflexivity.
Qed.

Lemma valid_prices (D : string -> option Z) (its : list IntradayItem) :
  prices_not_NaN its ->
  Forall (fun t => JS.isNaN (price t) = false) (valid D its).
Proof.
  intros Hp. apply List.Forall_forall. intros t Ht.
  apply valid_In in Ht as (it & Hin & Hit).
  eapply Hp; [exact Hin | eapply to_tick_price; exact Hit].
Qed.

(** ** Facts about scenario 1 *)

Lemma scenario_prices_not_NaN : prices_not_NaN scenario_items.
Proof.
  intros it p [<- | [<- | [<- | []]]] [= <-]; reflexivity.
Qed.

Lemma scenario_ticks_sorted : Sorted ts_le scenario_ticks.
Proof.
  repeat constructor; unfold ts_le; vm_compute; discriminate.
Qed.

(** ** Aggregation *)

(** C1. On a time-sorted sequence of valid ticks [aggregateCandles] yields
    the candles of the streaming accumulator of the specification (seed on
    the first tick of a bucket, max/min/last price and summed volume on the
    later ones, emit and reseed on a new bucket); on the three ticks of
    scenario 1 at 5m it yields the two candles
    [{09:30:00, 100, 101, 100, 101, 15}] and [{09:35:00, 99, 99, 99, 99, 7}]. *)
Theorem aggregateCandles_streaming :
  (forall (Date_getTime : string -> option Z) (its : list IntradayItem)
          (ticks : list Tick) (tf : IntradayTimeframe),
      map (to_tick Date_getTime) its = map Some ticks ->
      Sorted ts_le ticks ->
      aggregateCandles Date_getTime its tf = Spec.aggregate ticks tf)
  /\ aggregateCandles Date_getTime_utc scenario_items TF_5m
     = [scenario_candle "09:30:00" 100 101 100 101 15;
        scenario_candle "09:35:00" 99 99 99 99 7].
Proof.
  split.
  - intros D its ticks tf Hmap Hsorted.
    rewrite aggregateCandles_walk, valid_unfold, Hmap, filter_nonnull_Some.
    now rewrite Array_sort_sorted_id.
  - vm_compute. reflexivity.
Qed.

Lemma aggregateCandles_streaming_witness :
  aggregateCandles Date_getTime_utc scenario_items TF_5m
  = Spec.aggregate scenario_ticks TF_5m.
Proof.
  apply (proj1 aggregateCandles_streaming).
  - reflexivity.
  - exact scenario_ticks_sorted.
Defined.

(** C3. Every candle produced by [aggregateCandles] satisfies
    [low <= Math.min(open, close)] and [high >= Math.max(open, close)],
    for every array of items whose prices are numbers other than NaN (a
    payload decoded from JSON holds no NaN) and every timeframe. *)
Theorem aggregateCandles_OHLC (Date_getTime : string -> option Z)
    (its : list IntradayItem) (tf : IntradayTimeframe) (c : AggregatedCandle) :
  prices_not_NaN its ->
  In c (aggregateCandles Date_getTime its tf) ->
  JS.le (low c) (JS.Math_min (open c) (close c)) = true
  /\ JS.ge (high c) (JS.Math_max (open c) (close c)) = true.
Proof.
  intros Hp Hin. rewrite aggregateCandles_walk in Hin.
  assert (H : Forall OHLC (Spec.aggregate (valid Date_getTime its) tf)).
  { apply walk_OHLC; [now apply valid_prices | discriminate]. }
  rewrite List.Forall_forall in H. exact (H c Hin).
Qed.

Lemma aggregateCandles_OHLC_witness :
  JS.le (JS.of_Z 100) (JS.Math_min (JS.of_Z 100) (JS.of_Z 101)) = true
  /\ JS.ge (JS.of_Z 101) (JS.Math_max (JS.of_Z 100) (JS.of_Z 101)) = true.
Proof.
  apply (aggregateCandles_OHLC Date_getTime_utc scenario_items TF_5m
           (scenario_candle "09:30:00" 100 101 100 101 15)).
  - exact scenario_prices_not_NaN.
  - vm_compute. left. reflexivity.
Defined.

Lemma ts_le_transitive : Transitive ts_le.
Proof. intros a b c. unfold ts_le. lia. Qed.

Lemma StronglySorted_lt_NoDup (l : list Z) : StronglySorted Z.lt l -> NoDup l.
Proof.
  induction 1 as [|x l Hs IH Hall]; constructor; [|exact IH].
  intros Hin. rewrite List.Forall_forall in Hall.
  rewrite list_elem_of_In in Hin. specialize (Hall x Hin). lia.
Qed.

Lemma aggregate_times (ticks : list Tick) (tf : IntradayTimeframe) :
  Sorted ts_le ticks ->
  StronglySorted Z.lt (map time (Spec.aggregate ticks tf)).
Proof.
  intros Hs. apply (Sorted_StronglySorted ts_le_transitive) in Hs.
  unfold Spec.aggregate. destruct ticks as [|t ticks]; [constructor|].
  cbn [Spec.walk]. apply StronglySorted_inv in Hs as [Hs Hall].
  apply walk_times; [apply bucketLength_pos | exact Hs |].
  eapply Forall_impl; [exact Hall|].
  intros t' Htt'. cbn [Spec.seed Spec.start].
  apply bucketStart_mono; [apply bucketLength_pos | exact Htt'].
Qed.

Lemma aggregateCandles_times_sorted (D : string -> option Z)
    (its : list IntradayItem) (tf : IntradayTimeframe) :
  StronglySorted Z.lt (map time (aggregateCandles D its tf)).
Proof. rewrite aggregateCandles_walk. apply aggregate_times, valid_sorted. Qed.

Lemma aggregateCandles_times_NoDup (D : string -> option Z)
    (its : list IntradayItem) (tf : IntradayTimeframe) :
  NoDup (map time (aggregateCandles D its tf)).
Proof. apply StronglySorted_lt_NoDup, aggregateCandles_times_sorted. Qed.

(** C4. The candles returned by [aggregateCandles] are strictly increasing
    by bucket start ([time]), so no bucket start occurs twice, for every
    array of items and every timeframe. *)
Theorem aggregateCandles_strictly_increasing
    (Date_getTime : string -> option Z) (its : list IntradayItem)
    (tf : IntradayTimeframe) :
  StronglySorted Z.lt (map time (aggregateCandles Date_getTime its tf))
  /\ NoDup (map time (aggregateCandles Date_getTime its tf)).
Proof.
  split.
  - apply aggregateCandles_times_sorted.
  - apply aggregateCandles_times_NoDup.
Qed.

(** C9. The timeframes map to bucket lengths of exactly 60, 180, 300, 600,
    1800 and 3600 seconds, and the bucket start of every produced candle is
    [floor(ts / bucketSeconds) * bucketSeconds] for one of the valid ticks,
    hence an exact integer multiple of the bucket length. *)
Theorem candle_bucket_alignment (Date_getTime : string -> option Z)
    (its : list IntradayItem) (tf : IntradayTimeframe) (c : AggregatedCandle) :
  In c (aggregateCandles Date_getTime its tf) ->
  map (fun tf' => TIMEFRAME_MINUTES tf' * 60) TIMEFRAMES
  = [60; 180; 300; 600; 1800; 3600]
  /\ (exists t, In t (valid Date_getTime its)
                /\ time c = ts t / (TIMEFRAME_MINUTES tf * 60)
                            * (TIMEFRAME_MINUTES tf * 60))
  /\ (exists k, time c = k * (TIMEFRAME_MINUTES tf * 60))
  /\ time c mod (TIMEFRAME_MINUTES tf * 60) = 0.
Proof.
  intros Hin. split; [reflexivity|].
  rewrite aggregateCandles_walk in Hin. unfold Spec.aggregate in Hin.
  apply walk_aligned in Hin as [(t & Ht & Hc) | (a & [=] & _)].
  rewrite bucketLength_minutes. unfold Spec.bucketStart in Hc.
  split; [now exists t|]. split.
  - exists (ts t / Spec.bucketLength tf). exact Hc.
  - rewrite Hc. apply Z.mod_mul. pose proof (bucketLength_pos tf). lia.
Qed.

Lemma candle_bucket_alignment_witness :
  map (fun tf' => TIMEFRAME_MINUTES tf' * 60) TIMEFRAMES
  = [60; 180; 300; 600; 1800; 3600]
  /\ (exists t, In t (valid Date_getTime_utc scenario_items)
                /\ scenario_time "09:35:00"
                   = ts t / (TIMEFRAME_MINUTES TF_5m * 60)
                     * (TIMEFRAME_MINUTES TF_5m * 60))
  /\ (exists k, scenario_time "09:35:00" = k * (TIMEFRAME_MINUTES TF_5m * 60))
  /\ scenario_time "09:35:00" mod (TIMEFRAME_MINUTES TF_5m * 60) = 0.
Proof.
  apply (candle_bucket_alignment Date_getTime_utc scenario_items TF_5m
           (scenario_candle "09:35:00" 99 99 99 99 7)).
  vm_compute. right. left. reflexivity.
Defined.

(** ** Normalisation *)





Lemma add_zero (v : JS.number) :
  JS.add v JS.zero = v
  \/ (v = S754_zero true /\ JS.add v JS.zero = JS.zero).
Proof. destruct v as [[]|[]| |]; cbn; auto. Qed.

(** ** The legend map *)

Lemma legend_map_of_snoc (cs : list AggregatedCandle) (c : AggregatedCandle) :
  legend_map_of (cs ++ [c]) = <[time c := legend_of c]> (legend_map_of cs).
Proof. unfold legend_map_of. now rewrite fold_left_app. Qed.

Lemma legend_map_of_lookup (cs : list AggregatedCandle) (c : AggregatedCandle) :
  NoDup (map time cs) -> In c cs ->
  legend_map_of cs !! time c = Some (legend_of c).
Proof.
  induction cs as [|c' cs IH] using rev_ind; [intros _ []|].
  rewrite map_app, legend_map_of_snoc. cbn [map].
  intros Hnd Hin. apply NoDup_app in Hnd as (Hnd & Hdisj & _).
  apply in_app_or in Hin as [Hin | [<- | []]].
  - rewrite lookup_insert_ne; [now apply IH|].
    intros Heq. apply (Hdisj (time c)).
    + apply list_elem_of_In, in_map, Hin.
    + rewrite Heq. apply list_elem_of_In. now left.
  - apply lookup_insert_eq.
Qed.

(** X1. The legend map built from the candles of [aggregateCandles] sends
    the bucket start of every candle to the summary of that very candle:
    its open, high, low, close and volume, and the change
    [(close - open) / open * 100], or null when [open] is zero. *)
Theorem legendMap_lookup (Date_getTime : string -> option Z)
    (its : list IntradayItem) (tf : IntradayTimeframe) (c : AggregatedCandle) :
  In c (aggregateCandles Date_getTime its tf) ->
  legend_map_of (aggregateCandles Date_getTime its tf) !! time c
  = Some (mkLegend (open c) (high c) (low c) (close c)
            (if JS.strict_neq (open c) JS.zero
             then Some (JS.mul (JS.div (JS.sub (close c) (open c)) (open c))
                               (JS.of_Z 100))
             else None)
            (volume c)).
Proof.
  intros Hin. apply (legend_map_of_lookup _ c); [|exact Hin].
  apply aggregateCandles_times_NoDup.
Qed.

Lemma legendMap_lookup_witness :
  legend_map_of (aggregateCandles Date_getTime_utc scenario_items TF_5m)
    !! scenario_time "09:30:00"
  = Some (mkLegend (JS.of_Z 100) (JS.of_Z 101) (JS.of_Z 100) (JS.of_Z 101)
                   (Some (JS.of_Z 1)) (JS.of_Z 15)).
Proof.
  apply (legendMap_lookup Date_getTime_utc scenario_items TF_5m
           (scenario_candle "09:30:00" 100 101 100 101 15)).
  vm_compute. left. reflexivity.
Defined.

(** X2. When no item is valid, and so for the empty array, the candle
    series is empty and so is the legend map built from it. *)
Theorem no_valid_item_no_candle (Date_getTime : string -> option Z)
    (its : list IntradayItem) (tf : IntradayTimeframe) :
  (forall it, In it its -> to_tick Date_getTime it = None) ->
  aggregateCandles Date_getTime its tf = []
  /\ legend_map_of (aggregateCandles Date_getTime its tf) = ∅
  /\ last (aggregateCandles Date_getTime its tf) = None.
Proof.
  intros Hall.
  assert (H : aggregateCandles Date_getTime its tf = []).
  { unfold aggregateCandles. rewrite valid_unfold.
    now rewrite (filter_nonnull_all_None _ _ Hall). }
  rewrite H. now repeat split.
Qed.

Lemma no_valid_item_no_candle_witness :
  aggregateCandles Date_getTime_utc [] TF_5m = []
  /\ legend_map_of (aggregateCandles Date_getTime_utc [] TF_5m) = ∅
  /\ last (aggregateCandles Date_getTime_utc [] TF_5m) = None.
Proof.
  apply (no_valid_item_no_candle Date_getTime_utc [] TF_5m).
  intros it [].
Defined.

(** ** The buckets and their candles *)

Lemma walk_emits_acc (len : Z) (ticks : list Tick) (a : Spec.Accumulator) :
  exists c, In c (Spec.walk len (Some a) ticks) /\ time c = Spec.start a.
Proof.
  revert a. induction ticks as [|t ticks IH]; intros a.
  - exists (Spec.emit a). split; [now left | reflexivity].
  - cbn [Spec.walk]. destruct (Spec.bucketStart len t =? Spec.start a).
    + destruct (IH (Spec.absorb a t)) as (c & Hin & Hc). now exists c.
    + exists (Spec.emit a). split; [now left | reflexivity].
Qed.

Lemma walk_complete (len : Z) (ticks : list Tick) (acc : option Spec.Accumulator)
    (t : Tick) :
  In t ticks ->
  exists c, In c (Spec.walk len acc ticks) /\ time c = Spec.bucketStart len t.
Proof.
  revert acc. induction ticks as [|t' ticks IH]; intros acc; [intros []|].
  intros [-> | Hin].
  - cbn [Spec.walk]. destruct acc as [a|].
    + destruct (Z.eqb_spec (Spec.bucketStart len t) (Spec.start a)) as [He|Hne].
      * destruct (walk_emits_acc len ticks (Spec.absorb a t)) as (c & Hc & Ht).
        exists c. split; [exact Hc|]. rewrite Ht. cbn. now symmetry.
      * destruct (walk_emits_acc len ticks (Spec.seed len t)) as (c & Hc & Ht).
        exists c. split; [now right | exact Ht].
    + destruct (walk_emits_acc len ticks (Spec.seed len t)) as (c & Hc & Ht).
      now exists c.
  - cbn [Spec.walk]. destruct acc as [a|].
    + destruct (Spec.bucketStart len t' =? Spec.start a).
      * now apply IH.
      * destruct (IH (Some (Spec.seed len t')) Hin) as (c & Hc & Ht).
        exists c. split; [now right | exact Ht].
    + now apply IH.
Qed.

Lemma walk_length (len : Z) (ticks : list Tick) (acc : option Spec.Accumulator) :
  (length (Spec.walk len acc ticks)
   <= length ticks + match acc with Some _ => 1 | None => 0 end)%nat.
Proof.
  revert acc. induction ticks as [|t ticks IH]; intros acc.
  - destruct acc; cbn; lia.
  - cbn [Spec.walk]. destruct acc as [a|].
    + destruct (_ =? _).
      * specialize (IH (Some (Spec.absorb a t))). cbn [length] in *. lia.
      * specialize (IH (Some (Spec.seed len t))). cbn [length] in *. lia.
    + specialize (IH (Some (Spec.seed len t))). cbn [length] in *. lia.
Qed.

Lemma filter_nonnull_length {A B : Type} (f : A -> option B) (l : list A) :
  (length (filter_nonnull (map f l)) <= length l)%nat.
Proof.
  induction l as [|x l IH]; cbn; [lia|]. destruct (f x); cbn; lia.
Qed.

Lemma aggregate_nonempty (ticks : list Tick) (tf : IntradayTimeframe) :
  Spec.aggregate ticks tf = [] <-> ticks = [].
Proof.
  split; [|now intros ->].
  destruct ticks as [|t ticks]; [reflexivity|]. intros H.
  destruct (walk_complete (Spec.bucketLength tf) (t :: ticks) None t) as (c & Hc & _);
    [now left|].
  unfold Spec.aggregate in H. rewrite H in Hc. destruct Hc.
Qed.

Lemma candle_time_iff (Date_getTime : string -> option Z)
    (its : list IntradayItem) (tf : IntradayTimeframe) (k : Z) :
  (exists c, In c (aggregateCandles Date_getTime its tf) /\ time c = k)
  <-> (exists t, In t (valid Date_getTime its)
                 /\ bucket_of (TIMEFRAME_MINUTES tf * 60) (ts t) = k).
Proof.
  rewrite aggregateCandles_walk, bucketLength_minutes. split.
  - intros (c & Hc & <-). unfold Spec.aggregate in Hc.
    apply walk_aligned in Hc as [(t & Ht & Hc) | (a & [=] & _)].
    now exists t.
  - intros (t & Ht & <-). now apply walk_complete.
Qed.

(** X4. A candle exists for exactly the buckets that hold a valid tick:
    the bucket starts of the candles are the values
    [Math.floor(ts / bucketSeconds) * bucketSeconds] of the valid ticks, no
    more and no fewer.  There are at most as many candles as valid ticks,
    at most as many valid ticks as items, and no candle only when no tick
    is valid. *)
Theorem candle_for_every_bucket (Date_getTime : string -> option Z)
    (its : list IntradayItem) (tf : IntradayTimeframe) :
  (forall k,
      (exists c, In c (aggregateCandles Date_getTime its tf) /\ time c = k)
      <-> (exists t, In t (valid Date_getTime its)
                     /\ bucket_of (TIMEFRAME_MINUTES tf * 60) (ts t) = k))
  /\ (length (aggregateCandles Date_getTime its tf)
      <= length (valid Date_getTime its) <= length its)%nat
  /\ (aggregateCandles Date_getTime its tf = []
      <-> valid Date_getTime its = []).
Proof.
  split; [apply candle_time_iff|].
  rewrite aggregateCandles_walk.
  split.
  - split.
    + pose proof (walk_length (Spec.bucketLength tf)
                    (valid Date_getTime its) None) as H.
      unfold Spec.aggregate. cbv beta iota in H. lia.
    + rewrite valid_unfold.
      erewrite Permutation_length by apply Array_sort_perm.
      apply filter_nonnull_length.
  - apply aggregate_nonempty.
Qed.

(** *** The ticks a candle is made of *)

Lemma absorb_all_start (l : list Tick) (a : Spec.Accumulator) :
  Spec.start (fold_left Spec.absorb l a) = Spec.start a.
Proof. revert a. induction l as [|t l IH]; intros a; [reflexivity|]. cbn. now rewrite IH. Qed.

Lemma bucket_ticks_none (len k : Z) (ticks : list Tick) :
  Forall (fun t => Spec.bucketStart len t <> k) ticks ->
  bucket_ticks len k ticks = [].
Proof.
  induction 1 as [|t ticks Ht _ IH]; [reflexivity|].
  unfold bucket_ticks in *. cbn [List.filter]. unfold in_bucket at 1.
  change (bucket_of len (ts t)) with (Spec.bucketStart len t).
  apply Z.eqb_neq in Ht. now rewrite Ht.
Qed.

Lemma bucket_ticks_cons (len k : Z) (t : Tick) (ticks : list Tick) :
  bucket_ticks len k (t :: ticks)
  = if Spec.bucketStart len t =? k then t :: bucket_ticks len k ticks
    else bucket_ticks len k ticks.
Proof. reflexivity. Qed.

Section Groups.
Variable len : Z.
Hypothesis len_pos : 0 < len.

Lemma walk_groups (ticks : list Tick) (a : Spec.Accumulator) (c : AggregatedCandle) :
  StronglySorted ts_le ticks ->
  Forall (fun t => Spec.start a <= Spec.bucketStart len t) ticks ->
  In c (Spec.walk len (Some a) ticks) ->
  (time c = Spec.start a
   /\ c = Spec.emit (fold_left Spec.absorb
                       (bucket_ticks len (Spec.start a) ticks) a))
  \/ (time c <> Spec.start a
      /\ exists t0 rest,
           bucket_ticks len (time c) ticks = t0 :: rest
           /\ c = Spec.emit (fold_left Spec.absorb rest (Spec.seed len t0))).
Proof.
  revert a. induction ticks as [|t ticks IH]; intros a Hs Hge Hin.
  - destruct Hin as [<- | []]. left. split; reflexivity.
  - apply StronglySorted_inv in Hs as [Hs Hall].
    apply Forall_cons_iff in Hge as [Ht Hge].
    cbn [Spec.walk] in Hin. rewrite !bucket_ticks_cons.
    destruct (Z.eqb_spec (Spec.bucketStart len t) (Spec.start a)) as [Heq|Hne].
    + destruct (IH (Spec.absorb a t) Hs Hge Hin) as [[H1 H2] | [H1 H2]].
      * left. split; [exact H1 | exact H2].
      * right. split; [exact H1|].
        cbn [Spec.absorb Spec.start] in H1.
        destruct (Z.eqb_spec (Spec.bucketStart len t) (time c)); [congruence|].
        exact H2.
    + assert (Hseed : Forall (fun t' => Spec.start (Spec.seed len t)
                                        <= Spec.bucketStart len t') ticks).
      { eapply Forall_impl; [exact Hall|].
        intros t' Htt'. cbn. now apply bucketStart_mono. }
      destruct Hin as [<- | Hin].
      * left. split; [reflexivity|].
        rewrite bucket_ticks_none; [reflexivity|].
        eapply Forall_impl; [exact Hseed|]. cbn. intros t' Ht'. lia.
      * right.
        destruct (IH (Spec.seed len t) Hs Hseed Hin) as [[H1 H2] | [H1 H2]].
        -- cbn [Spec.seed Spec.start] in H1, H2.
           split; [lia|]. rewrite H1, Z.eqb_refl.
           exists t, (bucket_ticks len (Spec.bucketStart len t) ticks).
           split; [reflexivity | exact H2].
        -- cbn [Spec.seed Spec.start] in H1.
           assert (Hc : Spec.bucketStart len t <= time c).
           { destruct H2 as (t0 & rest & Hg & _).
             assert (Hin0 : In t0 (bucket_ticks len (time c) ticks))
               by (rewrite Hg; now left).
             apply filter_In in Hin0 as [Hin0 Hb].
             apply Z.eqb_eq in Hb. rewrite <- Hb.
             rewrite List.Forall_forall in Hseed. apply (Hseed t0 Hin0). }
           split; [lia|].
           destruct (Z.eqb_spec (Spec.bucketStart len t) (time c)); [congruence|].
           exact H2.
Qed.
End Groups.

Lemma last_cons_default {A : Type} (x d : A) (l : list A) :
  List.last (x :: l) d = List.last l x.
Proof.
  revert x d. induction l as [|y l IH]; intros x d; [reflexivity|].
  change (List.last (x :: y :: l) d) with (List.last (y :: l) d).
  now rewrite !IH.
Qed.

Lemma absorb_all_fields (l : list Tick) (a : Spec.Accumulator) :
  let a' := fold_left Spec.absorb l a in
  Spec.a_open a' = Spec.a_open a
  /\ Spec.a_high a' = fold_left JS.Math_max (map price l) (Spec.a_high a)
  /\ Spec.a_low a' = fold_left JS.Math_min (map price l) (Spec.a_low a)
  /\ Spec.a_close a' = List.last (map price l) (Spec.a_close a)
  /\ Spec.a_volume a' = fold_left JS.add (map tick_volume l) (Spec.a_volume a).
Proof.
  revert a. induction l as [|t l IH]; intros a; [now repeat split|].
  cbn [fold_left map]. destruct (IH (Spec.absorb a t)) as (H1 & H2 & H3 & H4 & H5).
  cbv zeta. rewrite H1, H2, H3, H4, H5. repeat split.
  cbn [Spec.absorb Spec.a_close]. now rewrite last_cons_default.
Qed.

Lemma candle_of_bucket (Date_getTime : string -> option Z)
    (its : list IntradayItem) (tf : IntradayTimeframe) (c : AggregatedCandle) :
  In c (aggregateCandles Date_getTime its tf) ->
  exists t0 rest,
    bucket_ticks (TIMEFRAME_MINUTES tf * 60) (time c) (valid Date_getTime its)
    = t0 :: rest
    /\ c = Spec.emit (fold_left Spec.absorb rest
                        (Spec.seed (TIMEFRAME_MINUTES tf * 60) t0)).
Proof.
  rewrite aggregateCandles_walk, bucketLength_minutes.
  pose proof (valid_sorted Date_getTime its) as Hs.
  apply (Sorted_StronglySorted ts_le_transitive) in Hs.
  unfold Spec.aggregate.
  destruct (valid Date_getTime its) as [|t ticks]; [intros []|].
  cbn [Spec.walk]. intros Hin.
  apply StronglySorted_inv in Hs as [Hs Hall].
  set (len := Spec.bucketLength tf) in *.
  assert (Hseed : Forall (fun t' => Spec.start (Spec.seed len t)
                                    <= Spec.bucketStart len t') ticks).
  { eapply Forall_impl; [exact Hall|]. intros t' Htt'. cbn.
    apply bucketStart_mono; [apply bucketLength_pos | exact Htt']. }
  rewrite bucket_ticks_cons.
  destruct (walk_groups len (bucketLength_pos tf) ticks _ c Hs Hseed Hin)
    as [[H1 H2] | [H1 (t0 & rest & Hg & H2)]].
  - cbn [Spec.seed Spec.start] in H1, H2. rewrite H1, Z.eqb_refl.
    exists t, (bucket_ticks len (Spec.bucketStart len t) ticks).
    split; [reflexivity | exact H2].
  - cbn [Spec.seed Spec.start] in H1.
    destruct (Z.eqb_spec (Spec.bucketStart len t) (time c)); [congruence|].
    exists t0, rest. split; [exact Hg | exact H2].
Qed.

Lemma last_app_cons {A : Type} (l l' : list A) (x d : A) :
  List.last (l ++ x :: l') d = List.last l' x.
Proof.
  revert d. induction l as [|y l IH]; intros d.
  - apply last_cons_default.
  - change ((y :: l) ++ x :: l') with (y :: (l ++ x :: l')).
    rewrite last_cons_default. apply IH.
Qed.

Lemma fold_left_map_app_cons {A : Type} (f : JS.number -> JS.number -> JS.number)
    (g : A -> JS.number) (l l' : list A) (x : A) (a : JS.number) :
  fold_left f (map g (l ++ x :: l')) a
  = fold_left f (map g l') (f (fold_left f (map g l) a) (g x)).
Proof. now rewrite map_app, fold_left_app. Qed.

(** C10. A record whose date, time of day and price are present and parse,
    and whose [lastSellVolume] is null, is kept by normalisation as a tick
    of volume 0, and [aggregateCandles] returns a candle for its bucket
    that counts it among the ticks of the bucket.  Its price takes part in
    that candle like any other: it is the open when the record comes first
    and the close when it comes last, and [Math.max] and [Math.min] are
    applied to it at its place.  The volume of the candle is summed as if
    the record were absent: from 0 when the record opens the bucket, and
    otherwise from the sum reached before it (negative zero becoming
    0). *)
Theorem null_volume_record_kept (Date_getTime : string -> option Z)
    (its : list IntradayItem) (tf : IntradayTimeframe) (it : IntradayItem)
    (t : Z) (p : JS.number) :
  In it its ->
  parseIntradayTime Date_getTime it = Some t ->
  securityLastPrice it = Some p ->
  lastSellVolume it = None ->
  to_tick Date_getTime it = Some (mkTick t p JS.zero)
  /\ In (mkTick t p JS.zero) (valid Date_getTime its)
  /\ exists c before after,
       In c (aggregateCandles Date_getTime its tf)
       /\ time c = bucket_of (TIMEFRAME_MINUTES tf * 60) t
       /\ bucket_ticks (TIMEFRAME_MINUTES tf * 60) (time c)
                       (valid Date_getTime its)
          = before ++ mkTick t p JS.zero :: after
       /\ open c = hd p (map price before)
       /\ close c = List.last (map price after) p
       /\ high c
          = fold_left JS.Math_max (map price after)
              match so_far JS.Math_max (map price before) with
              | Some h => JS.Math_max h p
              | None => p
              end
       /\ low c
          = fold_left JS.Math_min (map price after)
              match so_far JS.Math_min (map price before) with
              | Some l => JS.Math_min l p
              | None => p
              end
       /\ exists v,
            volume c = fold_left JS.add (map tick_volume after) v
            /\ match so_far JS.add (map tick_volume before) with
               | Some sum => v = sum \/ (sum = S754_zero true /\ v = JS.zero)
               | None => v = JS.zero
               end.
Proof.
  intros Hin Hts Hp Hv.
  set (tick := mkTick t p JS.zero).
  set (len := TIMEFRAME_MINUTES tf * 60).
  assert (Htick : to_tick Date_getTime it = Some tick).
  { unfold to_tick. now rewrite Hts, Hp, Hv. }
  assert (Hvalid : In tick (valid Date_getTime its)).
  { apply valid_In. now exists it. }
  split; [exact Htick|]. split; [exact Hvalid|].
  destruct (proj2 (candle_time_iff Date_getTime its tf (bucket_of len t)))
    as (c & Hc & Htime); [now exists tick|].
  destruct (candle_of_bucket Date_getTime its tf c Hc)
    as (t0 & rest & Hg & Hsum).
  fold len in Hg, Hsum.
  assert (Hb : In tick (t0 :: rest)).
  { rewrite <- Hg. unfold bucket_ticks. apply filter_In.
    split; [exact Hvalid|]. unfold in_bucket. apply Z.eqb_eq.
    now rewrite Htime. }
  apply in_split in Hb as (before & after & Hsplit).
  exists c, before, after.
  split; [exact Hc|]. split; [exact Htime|].
  split; [now rewrite Hg, Hsplit|].
  destruct (absorb_all_fields rest (Spec.seed len t0))
    as (E1 & E2 & E3 & E4 & E5).
  cbn [Spec.seed Spec.a_open Spec.a_high Spec.a_low Spec.a_close
       Spec.a_volume] in E1, E2, E3, E4, E5.
  rewrite Hsum. cbn [Spec.emit open close high low volume].
  rewrite E1, E2, E3, E4, E5. clear E1 E2 E3 E4 E5 Hsum Hg.
  destruct before as [|b0 r].
  - injection Hsplit as -> ->.
    cbn [map hd so_far price tick_volume tick].
    do 4 (split; [reflexivity|]).
    exists JS.zero. split; reflexivity.
  - injection Hsplit as -> ->.
    cbn [map hd so_far].
    rewrite !(fold_left_map_app_cons _ _ r after tick).
    rewrite map_app. cbn [map]. rewrite last_app_cons.
    cbn [price tick_volume tick].
    do 4 (split; [reflexivity|]).
    exists (JS.add (fold_left JS.add (map tick_volume r) (tick_volume b0))
                   JS.zero).
    split; [reflexivity|]. apply add_zero.
Qed.

Lemma null_volume_item_time :
  parseIntradayTime Date_getTime_utc null_volume_item
  = Some (scenario_time "09:31:30").
Proof. reflexivity. Qed.

Lemma null_volume_record_kept_witness :
  exists c before after,
    In c (aggregateCandles Date_getTime_utc null_volume_items TF_5m)
    /\ time c
       = bucket_of (TIMEFRAME_MINUTES TF_5m * 60) (scenario_time "09:31:30")
    /\ bucket_ticks (TIMEFRAME_MINUTES TF_5m * 60) (time c)
                    (valid Date_getTime_utc null_volume_items)
       = before
         ++ mkTick (scenario_time "09:31:30") (JS.of_Z 101) JS.zero :: after
    /\ open c = hd (JS.of_Z 101) (map price before)
    /\ close c = List.last (map price after) (JS.of_Z 101)
    /\ high c
       = fold_left JS.Math_max (map price after)
           match so_far JS.Math_max (map price before) with
           | Some h => JS.Math_max h (JS.of_Z 101)
           | None => JS.of_Z 101
           end
    /\ low c
       = fold_left JS.Math_min (map price after)
           match so_far JS.Math_min (map price before) with
           | Some l => JS.Math_min l (JS.of_Z 101)
           | None => JS.of_Z 101
           end
    /\ exists v,
         volume c = fold_left JS.add (map tick_volume after) v
         /\ match so_far JS.add (map tick_volume before) with
            | Some sum => v = sum \/ (sum = S754_zero true /\ v = JS.zero)
            | None => v = JS.zero
            end.
Proof.
  exact (proj2 (proj2 (null_volume_record_kept Date_getTime_utc
           null_volume_items TF_5m null_volume_item
           (scenario_time "09:31:30") (JS.of_Z 101)
           (or_intror (or_introl eq_refl)) null_volume_item_time
           eq_refl eq_refl))).
Defined.

(** X5. A candle summarises all the valid ticks of its bucket and only
    them.  With those ticks in the order of [valid], [open] is the price of
    the first, [close] the price of the last, [high] and [low] are the
    [Math.max] and [Math.min] folded over the prices from the first one,
    and [volume] is the volumes added from left to right. *)
Theorem candle_summarises_its_bucket (Date_getTime : string -> option Z)
    (its : list IntradayItem) (tf : IntradayTimeframe) (c : AggregatedCandle) :
  In c (aggregateCandles Date_getTime its tf) ->
  exists t0 rest,
    bucket_ticks (TIMEFRAME_MINUTES tf * 60) (time c) (valid Date_getTime its)
    = t0 :: rest
    /\ open c = price t0
    /\ close c = List.last (map price rest) (price t0)
    /\ high c = fold_left JS.Math_max (map price rest) (price t0)
    /\ low c = fold_left JS.Math_min (map price rest) (price t0)
    /\ volume c = fold_left JS.add (map tick_volume rest) (tick_volume t0).
Proof.
  intros Hin.
  destruct (candle_of_bucket Date_getTime its tf c Hin) as (t0 & rest & Hg & ->).
  exists t0, rest. split; [exact Hg|].
  destruct (absorb_all_fields rest (Spec.seed (TIMEFRAME_MINUTES tf * 60) t0))
    as (E1 & E2 & E3 & E4 & E5).
  cbn [Spec.emit open close high low volume].
  now rewrite E1, E2, E3, E4, E5.
Qed.

Lemma scenario_first_candle :
  In (scenario_candle "09:30:00" 100 101 100 101 15)
     (aggregateCandles Date_getTime_utc scenario_items TF_5m).
Proof. vm_compute. left. reflexivity. Qed.

Lemma candle_summarises_its_bucket_witness :
  exists t0 rest,
    bucket_ticks (TIMEFRAME_MINUTES TF_5m * 60) (scenario_time "09:30:00")
                 (valid Date_getTime_utc scenario_items)
    = t0 :: rest
    /\ JS.of_Z 100 = price t0
    /\ JS.of_Z 101 = List.last (map price rest) (price t0)
    /\ JS.of_Z 101 = fold_left JS.Math_max (map price rest) (price t0)
    /\ JS.of_Z 100 = fold_left JS.Math_min (map price rest) (price t0)
    /\ JS.of_Z 15 = fold_left JS.add (map tick_volume rest) (tick_volume t0).
Proof.
  exact (candle_summarises_its_bucket Date_getTime_utc scenario_items TF_5m
           (scenario_candle "09:30:00" 100 101 100 101 15)
           scenario_first_candle).
Defined.

Lemma fold_max_spec (l : list JS.number) (x : JS.number) :
  not_NaN x -> Forall not_NaN l ->
  let m := fold_left JS.Math_max l x in
  not_NaN m /\ JS.le x m = true /\ Forall (fun p => JS.le p m = true) l
  /\ In m (x :: l).
Proof.
  revert x. induction l as [|p l IH]; intros x Hx Hl.
  - cbv zeta. cbn [fold_left].
    split; [exact Hx|]. split; [now apply le_refl|].
    split; [constructor | now left].
  - apply Forall_cons_iff in Hl as [Hp Hl]. cbn [fold_left].
    destruct (IH (JS.Math_max x p) (Math_max_not_NaN x p Hx Hp) Hl)
      as (H1 & H2 & H3 & H4).
    cbv zeta. split; [exact H1|]. split; [|split].
    + apply (le_trans _ (JS.Math_max x p)); [now apply Math_max_ge_l | exact H2].
    + constructor; [|exact H3].
      apply (le_trans _ (JS.Math_max x p)); [now apply Math_max_ge_r | exact H2].
    + destruct H4 as [H4 | H4]; [|now right; right].
      rewrite <- H4.
      destruct (Math_max_cases x p Hx Hp) as [-> | ->]; [now left | now right; left].
Qed.

Lemma fold_min_spec (l : list JS.number) (x : JS.number) :
  not_NaN x -> Forall not_NaN l ->
  let m := fold_left JS.Math_min l x in
  not_NaN m /\ JS.le m x = true /\ Forall (fun p => JS.le m p = true) l
  /\ In m (x :: l).
Proof.
  revert x. induction l as [|p l IH]; intros x Hx Hl.
  - cbv zeta. cbn [fold_left].
    split; [exact Hx|]. split; [now apply le_refl|].
    split; [constructor | now left].
  - apply Forall_cons_iff in Hl as [Hp Hl]. cbn [fold_left].
    destruct (IH (JS.Math_min x p) (Math_min_not_NaN x p Hx Hp) Hl)
      as (H1 & H2 & H3 & H4).
    cbv zeta. split; [exact H1|]. split; [|split].
    + apply (le_trans _ (JS.Math_min x p)); [exact H2 | now apply Math_min_le_l].
    + constructor; [|exact H3].
      apply (le_trans _ (JS.Math_min x p)); [exact H2 | now apply Math_min_le_r].
    + destruct H4 as [H4 | H4]; [|now right; right].
      rewrite <- H4.
      destruct (Math_min_cases x p Hx Hp) as [-> | ->]; [now left | now right; left].
Qed.

(** X6. When no price is NaN, [low <= price <= high] for every valid tick
    of the candle's bucket, and [high] and [low] are each the price of one
    of these ticks. *)
Theorem high_low_are_bucket_extremes (Date_getTime : string -> option Z)
    (its : list IntradayItem) (tf : IntradayTimeframe) (c : AggregatedCandle) :
  prices_not_NaN its ->
  In c (aggregateCandles Date_getTime its tf) ->
  (forall t, In t (valid Date_getTime its) ->
             bucket_of (TIMEFRAME_MINUTES tf * 60) (ts t) = time c ->
             JS.le (low c) (price t) = true /\ JS.le (price t) (high c) = true)
  /\ (exists t, In t (valid Date_getTime its)
                /\ bucket_of (TIMEFRAME_MINUTES tf * 60) (ts t) = time c
                /\ high c = price t)
  /\ (exists t, In t (valid Date_getTime its)
                /\ bucket_of (TIMEFRAME_MINUTES tf * 60) (ts t) = time c
                /\ low c = price t).
Proof.
  intros Hp Hin.
  destruct (candle_of_bucket Date_getTime its tf c Hin) as (t0 & rest & Hg & Hc).
  set (len := TIMEFRAME_MINUTES tf * 60) in *.
  assert (Hmem : forall t, In t (t0 :: rest)
                           <-> In t (valid Date_getTime its)
                               /\ bucket_of len (ts t) = time c).
  { intros t. rewrite <- Hg. unfold bucket_ticks. rewrite filter_In.
    unfold in_bucket. now rewrite Z.eqb_eq. }
  assert (Hnn : Forall not_NaN (map price (t0 :: rest))).
  { apply Forall_map, List.Forall_forall. intros t Ht.
    apply Hmem in Ht as [Ht _].
    pose proof (valid_prices Date_getTime its Hp) as Hv.
    rewrite List.Forall_forall in Hv. now apply Hv. }
  cbn [map] in Hnn. apply Forall_cons_iff in Hnn as [Hn0 Hnn].
  destruct (absorb_all_fields rest (Spec.seed len t0)) as (_ & E2 & E3 & _).
  cbn [Spec.seed Spec.a_high Spec.a_low] in E2, E3.
  assert (Hhigh : high c = fold_left JS.Math_max (map price rest) (price t0))
    by (rewrite Hc; exact E2).
  assert (Hlow : low c = fold_left JS.Math_min (map price rest) (price t0))
    by (rewrite Hc; exact E3).
  destruct (fold_max_spec _ _ Hn0 Hnn) as (_ & M1 & M2 & M3).
  destruct (fold_min_spec _ _ Hn0 Hnn) as (_ & N1 & N2 & N3).
  rewrite <- Hhigh in M1, M2, M3. rewrite <- Hlow in N1, N2, N3.
  assert (Hin_price : forall m, In m (price t0 :: map price rest) ->
                                exists t, In t (t0 :: rest) /\ m = price t).
  { intros m Hm. change (price t0 :: map price rest) with (map price (t0 :: rest)) in Hm.
    apply in_map_iff in Hm as (t & <- & Ht). now exists t. }
  split; [|split].
  - intros t Ht Hb.
    assert (Hin' : In t (t0 :: rest)) by (apply Hmem; now split).
    destruct Hin' as [<- | Hin']; [now split|].
    rewrite List.Forall_forall in M2, N2.
    split; [apply N2 | apply M2]; now apply in_map.
  - destruct (Hin_price _ M3) as (t & Ht & Hm).
    apply Hmem in Ht as [Ht Hb]. now exists t.
  - destruct (Hin_price _ N3) as (t & Ht & Hm).
    apply Hmem in Ht as [Ht Hb]. now exists t.
Qed.

Lemma high_low_are_bucket_extremes_witness :
  exists t, In t (valid Date_getTime_utc scenario_items)
            /\ bucket_of (TIMEFRAME_MINUTES TF_5m * 60) (ts t)
               = scenario_time "09:30:00"
            /\ JS.of_Z 101 = price t.
Proof.
  exact (proj1 (proj2 (high_low_are_bucket_extremes Date_getTime_utc
           scenario_items TF_5m
           (scenario_candle "09:30:00" 100 101 100 101 15)
           scenario_prices_not_NaN scenario_first_candle))).
Defined.

(** *** The order of the items *)

Lemma filter_nonnull_perm {A : Type} (l l' : list (option A)) :
  Permutation l l' -> Permutation (filter_nonnull l) (filter_nonnull l').
Proof.
  induction 1 as [|x l l' _ IH|x y l|l l' l'' _ IH1 _ IH2].
  - reflexivity.
  - destruct x; cbn; [now constructor | exact IH].
  - destruct x, y; cbn; try reflexivity. apply perm_swap.
  - now transitivity (filter_nonnull l').
Qed.

Lemma sorted_perm_unique (l1 l2 : list Tick) :
  StronglySorted ts_le l1 -> StronglySorted ts_le l2 ->
  Permutation l1 l2 -> NoDup (map ts l1) -> l1 = l2.
Proof.
  revert l2. induction l1 as [|x l1 IH]; intros l2 H1 H2 Hp Hnd.
  - now apply Permutation_nil in Hp.
  - destruct l2 as [|y l2].
    { symmetry in Hp. now apply Permutation_nil in Hp. }
    apply StronglySorted_inv in H1 as [H1 Hx].
    apply StronglySorted_inv in H2 as [H2 Hy].
    cbn [map] in Hnd. apply NoDup_cons in Hnd as [Hnx Hnd].
    rewrite List.Forall_forall in Hx, Hy.
    assert (Hyx : In y (x :: l1)).
    { apply (Permutation_in y (symmetry Hp)). now left. }
    assert (Hxy : In x (y :: l2)).
    { apply (Permutation_in x Hp). now left. }
    assert (Heq : y = x).
    { destruct Hyx as [Hyx | Hyx]; [now symmetry|]. exfalso.
      destruct Hxy as [Hxy | Hxy]; [subst y|].
      - apply Hnx. apply list_elem_of_In, in_map, Hyx.
      - pose proof (Hx y Hyx) as Ha. pose proof (Hy x Hxy) as Hb.
        unfold ts_le in *. apply Hnx.
        replace (ts x) with (ts y) by lia.
        apply list_elem_of_In, in_map, Hyx. }
    subst y. f_equal. apply IH; try assumption.
    now apply Permutation_cons_inv in Hp.
Qed.

(** X7. When the valid ticks have pairwise different timestamps the
    candles do not depend on the order of the items: every permutation of
    the array gives the same series. *)
Theorem item_order_is_irrelevant (Date_getTime : string -> option Z)
    (its its' : list IntradayItem) (tf : IntradayTimeframe) :
  Permutation its its' ->
  NoDup (map ts (valid Date_getTime its)) ->
  aggregateCandles Date_getTime its' tf = aggregateCandles Date_getTime its tf.
Proof.
  intros Hp Hnd. rewrite !aggregateCandles_walk. f_equal.
  symmetry. apply sorted_perm_unique.
  - apply (Sorted_StronglySorted ts_le_transitive), valid_sorted.
  - apply (Sorted_StronglySorted ts_le_transitive), valid_sorted.
  - rewrite !valid_unfold.
    rewrite !Array_sort_perm.
    apply filter_nonnull_perm, Permutation_map, Hp.
  - exact Hnd.
Qed.

Lemma scenario_timestamps_differ :
  NoDup (map ts (valid Date_getTime_utc scenario_items)).
Proof. apply (bool_decide_unpack _). vm_compute. exact I. Qed.

Lemma item_order_is_irrelevant_witness :
  aggregateCandles Date_getTime_utc (rev scenario_items) TF_5m
  = aggregateCandles Date_getTime_utc scenario_items TF_5m.
Proof.
  exact (item_order_is_irrelevant Date_getTime_utc scenario_items
           (rev scenario_items) TF_5m (Permutation_rev scenario_items)
           scenario_timestamps_differ).
Defined.

(** *** Coarser timeframes *)

Lemma bucket_of_coarser (a b t : Z) :
  0 < a -> 0 < b -> (a | b) ->
  bucket_of b (bucket_of a t) = bucket_of b t.
Proof.
  intros Ha Hb (k & ->). unfold bucket_of.
  assert (Hk : 0 < k) by nia.
  f_equal.
  rewrite (Z.mul_comm k a), <- !Z.div_div by lia.
  now rewrite Z.div_mul by lia.
Qed.

(** X8. When the minutes of one timeframe divide those of another, the
    coarser series regroups the finer one: every finer candle falls into a
    coarser candle that starts at the coarser bucket start of its time,
    every coarser candle holds a finer one, and the coarser series is not
    longer. *)
Theorem coarser_timeframe_regroups (Date_getTime : string -> option Z)
    (its : list IntradayItem) (tf1 tf2 : IntradayTimeframe) :
  (TIMEFRAME_MINUTES tf1 | TIMEFRAME_MINUTES tf2) ->
  let len2 := TIMEFRAME_MINUTES tf2 * 60 in
  (forall c1, In c1 (aggregateCandles Date_getTime its tf1) ->
     exists c2, In c2 (aggregateCandles Date_getTime its tf2)
                /\ time c2 = bucket_of len2 (time c1))
  /\ (forall c2, In c2 (aggregateCandles Date_getTime its tf2) ->
        exists c1, In c1 (aggregateCandles Date_getTime its tf1)
                   /\ time c2 = bucket_of len2 (time c1))
  /\ (length (aggregateCandles Date_getTime its tf2)
      <= length (aggregateCandles Date_getTime its tf1))%nat.
Proof.
  intros Hdiv len2.
  assert (Hco : forall t,
             bucket_of len2 (bucket_of (TIMEFRAME_MINUTES tf1 * 60) t)
             = bucket_of len2 t).
  { intros t. apply bucket_of_coarser.
    - destruct tf1; reflexivity.
    - destruct tf2; reflexivity.
    - subst len2. destruct Hdiv as (k & ->). exists k. ring. }
  assert (H1 : forall c1, In c1 (aggregateCandles Date_getTime its tf1) ->
             exists c2, In c2 (aggregateCandles Date_getTime its tf2)
                        /\ time c2 = bucket_of len2 (time c1)).
  { intros c1 Hc1.
    destruct (proj1 (candle_time_iff Date_getTime its tf1 (time c1)))
      as (t & Ht & Hk); [now exists c1|].
    destruct (proj2 (candle_time_iff Date_getTime its tf2
                       (bucket_of len2 (ts t)))) as (c2 & Hc2 & Hk2);
      [now exists t|].
    exists c2. split; [exact Hc2|]. now rewrite Hk2, <- Hk, Hco. }
  assert (H2 : forall c2, In c2 (aggregateCandles Date_getTime its tf2) ->
             exists c1, In c1 (aggregateCandles Date_getTime its tf1)
                        /\ time c2 = bucket_of len2 (time c1)).
  { intros c2 Hc2.
    destruct (proj1 (candle_time_iff Date_getTime its tf2 (time c2)))
      as (t & Ht & Hk); [now exists c2|].
    destruct (proj2 (candle_time_iff Date_getTime its tf1
                       (bucket_of (TIMEFRAME_MINUTES tf1 * 60) (ts t))))
      as (c1 & Hc1 & Hk1); [now exists t|].
    exists c1. split; [exact Hc1|]. now rewrite Hk1, Hco. }
  split; [exact H1|]. split; [exact H2|].
  rewrite <- (length_map time (aggregateCandles Date_getTime its tf2)).
  rewrite <- (length_map (fun c => bucket_of len2 (time c))
                (aggregateCandles Date_getTime its tf1)).
  apply List.NoDup_incl_length.
  - apply NoDup_ListNoDup, aggregateCandles_times_NoDup.
  - intros k Hk. apply in_map_iff in Hk as (c2 & <- & Hc2).
    destruct (H2 c2 Hc2) as (c1 & Hc1 & ->).
    apply in_map_iff. now exists c1.
Qed.

Lemma coarser_timeframe_regroups_witness :
  (length (aggregateCandles Date_getTime_utc scenario_items TF_1h)
   <= length (aggregateCandles Date_getTime_utc scenario_items TF_5m))%nat.
Proof.
  exact (proj2 (proj2 (coarser_timeframe_regroups Date_getTime_utc
           scenario_items TF_5m TF_1h (ex_intro _ 12 eq_refl)))).
Defined.

(** *** Dates in ISO form *)

Lemma split_T_head_app (d rest : string) :
  split_T_head d = d ->
  split_T_head (d +:+ "T" +:+ rest) = d.
Proof.
  induction d as [|c d IH]; [reflexivity|].
  intros H. simpl in *.
  destruct (Ascii.eqb c "T"); [discriminate|].
  injection H as H. f_equal. now apply IH.
Qed.

(** X9. Only the part of [date] before its first ["T"] is read: giving
    each plain, non-empty date an ISO time part (["T"] and any text)
    changes neither the ticks nor the candles. *)
Theorem iso_date_suffix_ignored (Date_getTime : string -> option Z)
    (its : list IntradayItem) (rest : IntradayItem -> string)
    (tf : IntradayTimeframe) :
  Forall (fun it => date it <> "" /\ split_T_head (date it) = date it) its ->
  let iso it := with_date (date it +:+ "T" +:+ rest it) it in
  map (to_tick Date_getTime) (map iso its) = map (to_tick Date_getTime) its
  /\ aggregateCandles Date_getTime (map iso its) tf
     = aggregateCandles Date_getTime its tf.
Proof.
  intros H iso.
  assert (Hm : map (to_tick Date_getTime) (map iso its)
               = map (to_tick Date_getTime) its).
  { rewrite map_map. apply map_ext_in. intros it Hit.
    apply (proj1 (List.Forall_forall _ _) H) in Hit as (Hne & Hs).
    unfold to_tick, parseIntradayTime, iso.
    cbn [with_date date lastSaleTime securityLastPrice lastSellVolume].
    rewrite (split_T_head_app _ _ Hs).
    destruct (lastSaleTime it) as [t|]; [|reflexivity].
    assert (H1 : JS.truthy_string (date it) = true).
    { destruct (date it); [now destruct Hne | reflexivity]. }
    assert (H2 : JS.truthy_string (date it +:+ "T" +:+ rest it) = true).
    { destruct (date it); reflexivity. }
    now rewrite H1, H2, Hs. }
  split; [exact Hm|].
  unfold aggregateCandles, valid. now rewrite Hm.
Qed.

Lemma scenario_dates_plain :
  Forall (fun it => date it <> "" /\ split_T_head (date it) = date it)
         scenario_items.
Proof. repeat constructor; discriminate. Qed.

Lemma iso_date_suffix_ignored_witness :
  aggregateCandles Date_getTime_utc
    (map (fun it => with_date (date it +:+ "T" +:+ "00:00:00.000Z") it)
         scenario_items) TF_5m
  = aggregateCandles Date_getTime_utc scenario_items TF_5m.
Proof.
  exact (proj2 (iso_date_suffix_ignored Date_getTime_utc scenario_items
                  (fun _ => "00:00:00.000Z") TF_5m scenario_dates_plain)).
Defined.

(** ** Extraction of the payload *)

Section ExtractionFacts.
Variable JSON_parse : string -> option ParsedJSON.

Lemma find_text_skip (n : nat) (s : string) (post : list ContentBlock) :
  find_text (repeat OtherContent n ++ TextContent s :: post) = Some s.
Proof. induction n as [|n IH]; [reflexivity | exact IH]. Qed.

Lemma find_text_none (n : nat) : find_text (repeat OtherContent n) = None.
Proof. induction n as [|n IH]; [reflexivity | exact IH]. Qed.

(** X10. Where [extractIntradayData] looks.  A [structuredContent] whose
    [items] is an array is returned whatever [content] holds, and one
    without it is ignored.  Otherwise the first text block decides alone:
    the blocks after it are never read, also when it does not parse.  A
    result without text block, without content, or no result at all gives
    null. *)
Theorem extractIntradayData_reads_first_text :
  (forall d blocks,
      extractIntradayData JSON_parse
        (Some (mkResult (Some (mkStructured true d)) blocks)) = Some d)
  /\ (forall d blocks,
        extractIntradayData JSON_parse
          (Some (mkResult (Some (mkStructured false d)) blocks))
        = extractIntradayData JSON_parse (Some (mkResult None blocks)))
  /\ (forall n s post,
        extractIntradayData JSON_parse
          (Some (mkResult None
                   (Some (repeat OtherContent n ++ TextContent s :: post))))
        = extractIntradayData JSON_parse
            (Some (mkResult None (Some [TextContent s]))))
  /\ (forall n s post,
        JSON_parse s = None ->
        extractIntradayData JSON_parse
          (Some (mkResult None
                   (Some (repeat OtherContent n ++ TextContent s :: post))))
        = None)
  /\ (forall n,
        extractIntradayData JSON_parse
          (Some (mkResult None (Some (repeat OtherContent n)))) = None)
  /\ extractIntradayData JSON_parse (Some (mkResult None None)) = None
  /\ extractIntradayData JSON_parse None = None.
Proof.
  split; [reflexivity|]. split; [reflexivity|]. split; [|split; [|split]].
  - intros n s post. unfold extractIntradayData, extract_text.
    cbn [structuredContent content mbind option_bind].
    now rewrite find_text_skip.
  - intros n s post Hs. unfold extractIntradayData, extract_text.
    cbn [structuredContent content mbind option_bind].
    now rewrite find_text_skip, Hs.
  - intros n. unfold extractIntradayData, extract_text.
    cbn [structuredContent content mbind option_bind].
    now rewrite find_text_none.
  - split; reflexivity.
Qed.

End ExtractionFacts.

Lemma extractIntradayData_reads_first_text_witness :
  extractIntradayData JSON_parse_throws
    (Some (mkResult None
             (Some (repeat OtherContent 1
                      ++ TextContent "not JSON" :: [TextContent "{}"]))))
  = None.
Proof.
  exact (proj1 (proj2 (proj2 (proj2
           (extractIntradayData_reads_first_text JSON_parse_throws))))
           1%nat "not JSON" [TextContent "{}"] eq_refl).
Defined.

(** ** The lifecycle *)

Section LifecycleFacts.

Variable Date_getTime : string -> option Z.
Variable JSON_parse : string -> option ParsedJSON.

(** *** The effects, one write each *)

Lemma setLegendValues_id (w : Widget) : setLegendValues (legendValues w) w = w.
Proof. now destruct w. Qed.

Lemma setSymbolInput_id (w : Widget) : setSymbolInput (symbolInput w) w = w.
Proof. now destruct w. Qed.

Lemma default_legend_effect_eq (w : Widget) :
  default_legend_effect Date_getTime w
  = setLegendValues (default_legend Date_getTime w) w.
Proof.
  unfold default_legend_effect, default_legend, last_legend.
  destruct (legendValues w) as [v|] eqn:Hlv.
  - now rewrite <- Hlv, setLegendValues_id.
  - destruct (last _); [destruct (_ !! _)|];
      try reflexivity; now rewrite <- Hlv, setLegendValues_id.
Qed.

Lemma symbol_sync_effect_eq (w : Widget) :
  symbol_sync_effect w = setSymbolInput (synced_symbol w) w.
Proof.
  unfold symbol_sync_effect, synced_symbol.
  destruct (data w) as [d|]; [|now rewrite setSymbolInput_id].
  destruct (_ && _); [reflexivity | now rewrite setSymbolInput_id].
Qed.

Lemma inner_effects_eq (w : Widget) (a : App) :
  host_app w = Some a ->
  inner_effects Date_getTime w
  = set_interval (interval_for w)
      (setSymbolInput (synced_symbol w)
         (setLegendValues (default_legend Date_getTime w) w)).
Proof.
  intros Happ. unfold inner_effects. rewrite Happ.
  rewrite default_legend_effect_eq, symbol_sync_effect_eq.
  reflexivity.
Qed.

Lemma autofetch_effect_quiet (w : Widget) :
  needsAutoFetch w = false -> autofetch_effect w = w.
Proof.
  intros H. unfold autofetch_effect. rewrite H. now destruct (host_app w).
Qed.

Lemma run_effects_quiet (w : Widget) (a : App) :
  host_app w = Some a -> needsAutoFetch w = false ->
  run_effects Date_getTime w
  = set_interval (interval_for w)
      (setSymbolInput (synced_symbol w)
         (setLegendValues (default_legend Date_getTime w) w)).
Proof.
  intros Ha Hnaf. unfold run_effects.
  rewrite (inner_effects_eq w a Ha). now apply autofetch_effect_quiet.
Qed.

Lemma run_effects_unmounted (w : Widget) :
  host_app w = None -> run_effects Date_getTime w = w.
Proof.
  intros Ha. unfold run_effects, inner_effects, autofetch_effect.
  now rewrite !Ha.
Qed.

Lemma run_effects_host_app (w : Widget) :
  host_app (run_effects Date_getTime w) = host_app w.
Proof.
  destruct (host_app w) as [a|] eqn:Ha.
  - unfold run_effects, autofetch_effect.
    rewrite (inner_effects_eq w a Ha).
    cbn [host_app needsAutoFetch set_interval setSymbolInput setLegendValues].
    rewrite Ha. destruct (needsAutoFetch w); [|exact Ha].
    destruct (callServerTool_is_function a); exact Ha.
  - now rewrite (run_effects_unmounted w Ha).
Qed.

(** *** The effects reach a fixed point in one pass *)

Lemma default_legend_idem (w w1 : Widget) :
  legendValues w1 = default_legend Date_getTime w ->
  data w1 = data w -> selectedTimeframe w1 = selectedTimeframe w ->
  default_legend Date_getTime w1 = default_legend Date_getTime w.
Proof.
  unfold default_legend, candleData, legendMap, widget_candles, data_items.
  intros -> -> ->.
  destruct (legendValues w); [reflexivity|].
  destruct (last _); [destruct (_ !! _)|]; reflexivity.
Qed.

Lemma synced_symbol_idem (w w1 : Widget) :
  symbolInput w1 = synced_symbol w -> data w1 = data w ->
  synced_symbol w1 = synced_symbol w.
Proof.
  unfold synced_symbol. intros -> ->.
  destruct (data w) as [d|]; [|reflexivity].
  destruct (JS.truthy_string (symbol d)) eqn:Hs; cbn [andb]; [|reflexivity].
  destruct (JS.truthy_string (symbolInput w)) eqn:Hi; cbn [negb].
  - now rewrite Hi.
  - now rewrite Hs.
Qed.

Lemma inner_effects_idem (w : Widget) :
  inner_effects Date_getTime (inner_effects Date_getTime w)
  = inner_effects Date_getTime w.
Proof.
  destruct (host_app w) as [a|] eqn:Happ.
  - rewrite (inner_effects_eq w a Happ).
    set (w1 := set_interval _ _).
    rewrite (inner_effects_eq w1 a Happ).
    rewrite (default_legend_idem w w1), (synced_symbol_idem w w1)
      by reflexivity.
    subst w1. now destruct w.
  - unfold inner_effects. now rewrite Happ, Happ.
Qed.

Lemma autofetch_effect_idem (w : Widget) :
  autofetch_effect (autofetch_effect w) = autofetch_effect w.
Proof.
  unfold autofetch_effect.
  destruct (host_app w) as [a|] eqn:Happ; [|now rewrite Happ].
  destruct (needsAutoFetch w) eqn:Hnaf.
  - destruct (callServerTool_is_function a); cbn; now rewrite Happ.
  - now rewrite Happ, Hnaf.
Qed.

Lemma autofetch_inner_commute (w : Widget) :
  inner_effects Date_getTime (autofetch_effect w)
  = autofetch_effect (inner_effects Date_getTime w).
Proof.
  destruct (host_app w) as [a|] eqn:Happ.
  - assert (Happ' : host_app (autofetch_effect w) = Some a).
    { unfold autofetch_effect. rewrite Happ.
      destruct (needsAutoFetch w); [|exact Happ].
      destruct (callServerTool_is_function a); exact Happ. }
    rewrite (inner_effects_eq _ a Happ'), (inner_effects_eq w a Happ).
    unfold autofetch_effect.
    cbn [host_app set_interval setSymbolInput setLegendValues
         needsAutoFetch].
    rewrite Happ.
    destruct (needsAutoFetch w); [|reflexivity].
    destruct (callServerTool_is_function a); reflexivity.
  - unfold inner_effects, autofetch_effect. now rewrite !Happ.
Qed.

Lemma run_effects_idem (w : Widget) :
  run_effects Date_getTime (run_effects Date_getTime w)
  = run_effects Date_getTime w.
Proof.
  unfold run_effects.
  rewrite autofetch_inner_commute, inner_effects_idem.
  apply autofetch_effect_idem.
Qed.

(** *** Reachable states are settled *)

Lemma reachable_stable (w : Widget) :
  reachable Date_getTime JSON_parse w -> run_effects Date_getTime w = w.
Proof. induction 1; [reflexivity | apply run_effects_idem]. Qed.

Lemma stable_mounted (w : Widget) (a : App) :
  run_effects Date_getTime w = w -> host_app w = Some a ->
  needsAutoFetch w = false
  /\ default_legend Date_getTime w = legendValues w
  /\ synced_symbol w = symbolInput w
  /\ interval_for w = interval w.
Proof.
  intros Hst Happ. unfold run_effects in Hst.
  rewrite (inner_effects_eq w a Happ) in Hst.
  unfold autofetch_effect in Hst.
  cbn [host_app set_interval setSymbolInput setLegendValues needsAutoFetch]
    in Hst.
  rewrite Happ in Hst.
  destruct (needsAutoFetch w) eqn:Hnaf.
  - exfalso. apply (f_equal needsAutoFetch) in Hst. rewrite Hnaf in Hst.
    destruct (callServerTool_is_function a); discriminate Hst.
  - split; [reflexivity|]. split; [|split].
    + now apply (f_equal legendValues) in Hst.
    + now apply (f_equal symbolInput) in Hst.
    + now apply (f_equal interval) in Hst.
Qed.

Lemma reachable_mounted_stable (w : Widget) (a : App) :
  reachable Date_getTime JSON_parse w -> host_app w = Some a ->
  needsAutoFetch w = false
  /\ forall w0, host_app w0 = host_app w -> needsAutoFetch w0 = needsAutoFetch w ->
       default_legend Date_getTime w0 = legendValues w0 ->
       synced_symbol w0 = symbolInput w0 ->
       interval_for w0 = interval w0 ->
       run_effects Date_getTime w0 = w0.
Proof.
  intros Hreach Ha.
  destruct (stable_mounted w a (reachable_stable w Hreach) Ha) as (Hnaf & _).
  split; [exact Hnaf|].
  intros w0 Ha0 Hn0 H1 H2 H3.
  rewrite (run_effects_quiet w0 a) by congruence.
  rewrite H1, H2, H3. now destruct w0.
Qed.

(** *** Before the host is connected nothing is requested *)

Lemma handle_host_app (ev : Event) (w : Widget) :
  host_app w = None ->
  host_app (handle Date_getTime JSON_parse ev w) = None ->
  pending w = [] ->
  exists d n, handle Date_getTime JSON_parse ev w = setNeedsAutoFetch n (setData d w).
Proof.
  intros Ha Ha' Hp.
  assert (Hid : exists d n, w = setNeedsAutoFetch n (setData d w)).
  { exists (data w), (needsAutoFetch w). now destruct w. }
  destruct ev; cbn [handle] in *; rewrite ?Ha in *; try exact Hid.
  - discriminate Ha'.
  - unfold ontoolresult in *. destruct (extractIntradayData _ _) as [d|].
    + exists (Some d), (needsAutoFetch w). now destruct w.
    + exists (data w), true. now destruct w.
  - unfold on_settled in *. rewrite Hp in *. exact Hid.
Qed.

Lemma handle_keeps_mounted (ev : Event) (w : Widget) (a : App) :
  host_app w = Some a ->
  host_app (handle Date_getTime JSON_parse ev w) = Some a.
Proof.
  intros Ha.
  destruct ev; cbn [handle]; rewrite ?Ha;
    unfold ontoolresult, on_settled, handleRefresh_resume, autofetch_resume,
      handleRefreshClick, handleRefresh, handleCrosshairMove, last_legend;
    repeat case_match; first [exact Ha | reflexivity | congruence].
Qed.

Lemma reachable_unmounted (w : Widget) :
  reachable Date_getTime JSON_parse w ->
  host_app w = None ->
  isRefreshing w = false /\ refreshError w = None /\ interval w = None
  /\ calls w = [] /\ pending w = [].
Proof.
  induction 1 as [|w ev Hreach IH]; [intros _; now repeat split|].
  unfold step. rewrite run_effects_host_app. intros Ha'.
  rewrite (run_effects_unmounted _ Ha').
  assert (Hw : host_app w = None).
  { destruct (host_app w) as [a|] eqn:Hw; [|reflexivity].
    rewrite (handle_keeps_mounted ev w a Hw) in Ha'. discriminate. }
  destruct (IH Hw) as (H1 & H2 & H3 & H4 & H5).
  destruct (handle_host_app ev w Hw Ha' H5) as (d & n & ->).
  now repeat split.
Qed.

(** *** The legend of the last candle *)

Lemma last_map_bar (cs : list AggregatedCandle) :
  last (map bar_of cs) = bar_of <$> last cs.
Proof.
  induction cs as [|c [|c' cs] IH]; [reflexivity | reflexivity | exact IH].
Qed.

Lemma legend_map_of_last (cs : list AggregatedCandle) :
  match last (map bar_of cs) with
  | Some bar => legend_map_of cs !! bar_time bar
  | None => None
  end = legend_of <$> last cs.
Proof.
  destruct cs as [|c cs _] using rev_ind; [reflexivity|].
  rewrite last_map_bar, last_snoc. cbn [fmap option_fmap option_map].
  unfold legend_map_of. rewrite fold_left_app. cbn [fold_left bar_of bar_time].
  apply lookup_insert_eq.
Qed.

(** *** Settling a request *)

Lemma existsb_eqb_snoc (id : nat) (l : list nat) :
  existsb (Nat.eqb id) (l ++ [id]) = true.
Proof.
  rewrite existsb_app. cbn. rewrite Nat.eqb_refl.
  apply orb_true_iff. right. reflexivity.
Qed.

Lemma existsb_eqb_In (id : nat) (l : list nat) :
  In id l -> existsb (Nat.eqb id) l = true.
Proof.
  intros Hin. apply existsb_exists. exists id. split; [exact Hin|].
  apply Nat.eqb_refl.
Qed.

Lemma autofetch_resume_failed (o : Outcome) (w : Widget) :
  fetch_failed JSON_parse o -> autofetch_resume JSON_parse o w = w.
Proof.
  intros [-> | (r & -> & Hr)]; [reflexivity|].
  unfold autofetch_resume. now rewrite Hr.
Qed.

Lemma handleRefresh_resume_failed (o : Outcome) (w : Widget) :
  fetch_failed JSON_parse o ->
  handleRefresh_resume JSON_parse o w
  = setIsRefreshing false (setRefreshError (Some (failure_message o)) w).
Proof.
  intros [-> | (r & -> & Hr)]; [reflexivity|].
  unfold handleRefresh_resume. now rewrite Hr.
Qed.

(** *** The claims *)

(** C8. In a reachable state whose timeframe buttons are enabled, choosing
    a timeframe leaves [data] (the raw ticks) untouched and calls no server
    tool; the candles and the legend map become those of
    [aggregateCandles] over the same items at the new timeframe; and the
    legend shown, cleared by the click, is set by the default-legend effect
    to the values of the last candle of the new series (to nothing when
    the series is empty). *)
Theorem timeframe_change_reaggregates (w : Widget) (tf : IntradayTimeframe) :
  reachable Date_getTime JSON_parse w ->
  host_app w <> None ->
  isRefreshing w = false ->
  let w' := step Date_getTime JSON_parse w (TimeframeClick tf) in
  selectedTimeframe w' = tf
  /\ data w' = data w
  /\ calls w' = calls w
  /\ pending w' = pending w
  /\ candleData Date_getTime w'
     = map bar_of (aggregateCandles Date_getTime (data_items w) tf)
  /\ legendMap Date_getTime w'
     = match data w with
       | Some _ => legend_map_of (aggregateCandles Date_getTime (data_items w) tf)
       | None => ∅
       end
  /\ legendValues w'
     = legend_of <$> last (aggregateCandles Date_getTime (data_items w) tf).
Proof.
  intros Hreach Happ Hrefr.
  destruct (host_app w) as [a|] eqn:Ha; [clear Happ | congruence].
  destruct (stable_mounted w a (reachable_stable w Hreach) Ha) as (Hnaf & _).
  intros w'. subst w'. unfold step, handle. rewrite Ha, Hrefr.
  set (w0 := setLegendValues None (setSelectedTimeframe tf w)).
  unfold run_effects. rewrite (inner_effects_eq w0 a Ha).
  rewrite autofetch_effect_quiet by exact Hnaf.
  assert (Hcd : candleData Date_getTime w0
                = map bar_of (aggregateCandles Date_getTime (data_items w) tf)).
  { unfold candleData, widget_candles, data_items.
    cbn [data w0 setLegendValues setSelectedTimeframe selectedTimeframe].
    destruct (data w) as [d|]; [|reflexivity].
    destruct (items d); reflexivity. }
  repeat split; try reflexivity.
  - exact Hcd.
  - cbn [legendValues set_interval setSymbolInput setLegendValues].
    unfold default_legend. change (legendValues w0) with (@None LegendValues).
    cbv iota. rewrite Hcd. unfold legendMap, widget_candles, data_items.
    change (data w0) with (data w). change (selectedTimeframe w0) with tf.
    destruct (data w) as [d|]; [apply legend_map_of_last | reflexivity].
Qed.

Lemma autofetch_fires (w : Widget) (a : App) :
  host_app w = Some a ->
  callServerTool_is_function a = true ->
  needsAutoFetch w = true ->
  run_effects Date_getTime w
  = callServerTool AutoFetch None
      (setNeedsAutoFetch false
         (set_interval (interval_for w)
            (setSymbolInput (synced_symbol w)
               (setLegendValues (default_legend Date_getTime w) w)))).
Proof.
  intros Ha Hfun Hnaf. unfold run_effects, autofetch_effect.
  rewrite (inner_effects_eq w a Ha).
  cbn [host_app needsAutoFetch set_interval setSymbolInput setLegendValues].
  now rewrite Ha, Hnaf, Hfun.
Qed.

Lemma fallback_after_effects (w w0 : Widget) (a : App) :
  host_app w0 = Some a ->
  callServerTool_is_function a = true ->
  needsAutoFetch w0 = true ->
  calls w0 = calls w -> pending w0 = pending w ->
  data w0 = data w -> refreshError w0 = refreshError w ->
  fallback_issued w (run_effects Date_getTime w0)
  /\ fallback_failure_silent Date_getTime JSON_parse w
       (run_effects Date_getTime w0).
Proof.
  intros Ha Hfun Hnaf Hc Hp Hd He.
  rewrite (autofetch_fires w0 a Ha Hfun Hnaf).
  set (w1 := callServerTool _ _ _).
  assert (Hc1 : calls w1 = calls w ++ [mkCall TOOL_NAME None AutoFetch]).
  { subst w1. cbn [calls callServerTool setNeedsAutoFetch set_interval
                   setSymbolInput setLegendValues]. now rewrite Hc. }
  assert (Hp1 : pending w1 = pending w ++ [length (calls w)]).
  { subst w1. cbn [pending calls callServerTool setNeedsAutoFetch set_interval
                   setSymbolInput setLegendValues]. now rewrite Hc, Hp. }
  assert (Hd1 : data w1 = data w) by exact Hd.
  assert (He1 : refreshError w1 = refreshError w) by exact He.
  assert (Ha1 : host_app w1 = Some a) by exact Ha.
  assert (Hn1 : needsAutoFetch w1 = false) by reflexivity.
  clearbody w1.
  split; [now repeat split|].
  intros o Ho w2.
  assert (Hw2 : w2 = run_effects Date_getTime (settle (length (calls w)) w1)).
  { subst w2. unfold step, handle, on_settled.
    rewrite Hp1, existsb_eqb_snoc, Hc1.
    rewrite lookup_app_r, Nat.sub_diag by reflexivity.
    cbn [lookup list_lookup origin].
    now rewrite autofetch_resume_failed. }
  rewrite (run_effects_quiet _ a) in Hw2 by assumption.
  clearbody w2. subst w2.
  split; [reflexivity|]. split; [exact Hn1|].
  split; [exact Hd1|]. split; [exact He1|].
  intros Hdn Hen. unfold render.
  cbn [host_app refreshError data settle set_interval setSymbolInput
       setLegendValues].
  now rewrite Ha1, Hd1, He1, Hdn, Hen.
Qed.

(** C5. When the host delivers a tool result from which no payload can be
    extracted, exactly one call to the server tool is made, with empty
    arguments, and [needsAutoFetch] is reset: at once when the app is
    connected, and as soon as it connects when the result came first.  If
    that call is rejected or its result is unparseable too, no further call
    is made and [data] and [refreshError] are as before: a widget that was
    waiting for data still shows "Waiting for data..." and no error. *)
Theorem unparseable_result_one_fallback (w : Widget) (a : App)
    (r : CallToolResult) :
  callServerTool_is_function a = true ->
  extractIntradayData JSON_parse (Some r) = None ->
  (host_app w = Some a ->
   let w1 := step Date_getTime JSON_parse w (ToolResult r) in
   fallback_issued w w1
   /\ fallback_failure_silent Date_getTime JSON_parse w w1)
  /\ (host_app w = None ->
      let w0 := step Date_getTime JSON_parse w (ToolResult r) in
      let w1 := step Date_getTime JSON_parse w0 (AppConnected a) in
      calls w0 = calls w
      /\ needsAutoFetch w0 = true
      /\ fallback_issued w w1
      /\ fallback_failure_silent Date_getTime JSON_parse w w1).
Proof.
  intros Hfun Hr. split.
  - intros Ha w1. subst w1. unfold step, handle, ontoolresult. rewrite Hr.
    now apply (fallback_after_effects w _ a).
  - intros Ha w0.
    assert (Hw0 : w0 = setNeedsAutoFetch true w).
    { subst w0. unfold step, handle, ontoolresult. rewrite Hr.
      now apply run_effects_unmounted. }
    clearbody w0. subst w0. intros w1.
    split; [reflexivity|]. split; [reflexivity|].
    subst w1. unfold step. cbn [handle host_app setNeedsAutoFetch].
    rewrite Ha. now apply (fallback_after_effects w _ a).
Qed.

(** C6. When a pending refresh (manual or periodic) is rejected or yields
    no payload, [refreshError] becomes the message of the failure and
    [isRefreshing] is reset, while [data], the timeframe, the candles, the
    legend map and the legend shown are unchanged, and a widget that had
    data renders the same body as before under the error banner.  A later
    refresh clears the error when it starts, and when it succeeds [data]
    is the new payload and no error is left. *)
Theorem failed_refresh_keeps_data (w : Widget) (id : nat) (c : ToolCall)
    (o : Outcome) :
  reachable Date_getTime JSON_parse w ->
  In id (pending w) ->
  calls w !! id = Some c ->
  origin c = Refresh ->
  fetch_failed JSON_parse o ->
  let w' := step Date_getTime JSON_parse w (Settled id o) in
  refreshError w' = Some (failure_message o)
  /\ isRefreshing w' = false
  /\ data w' = data w
  /\ selectedTimeframe w' = selectedTimeframe w
  /\ candleData Date_getTime w' = candleData Date_getTime w
  /\ legendMap Date_getTime w' = legendMap Date_getTime w
  /\ legendValues w' = legendValues w
  /\ (forall d, data w = Some d ->
        render Date_getTime w'
        = match render Date_getTime w with
          | Inner _ body => Inner (Some (failure_message o)) body
          | Connecting => Connecting
          end)
  /\ (forall ev arg r d',
        handle Date_getTime JSON_parse ev w' = handleRefresh arg w' ->
        extractIntradayData JSON_parse (Some r) = Some d' ->
        let w2 := step Date_getTime JSON_parse w' ev in
        let w3 := step Date_getTime JSON_parse w2
                       (Settled (length (calls w')) (Fulfilled r)) in
        refreshError w2 = None
        /\ refreshError w3 = None
        /\ isRefreshing w3 = false
        /\ data w3 = Some d').
Proof.
  intros Hreach Hin Hc Ho Hfail w'.
  destruct (host_app w) as [a|] eqn:Ha; cycle 1.
  { destruct (reachable_unmounted w Hreach Ha) as (_ & _ & _ & _ & Hp).
    rewrite Hp in Hin. destruct Hin. }
  destruct (stable_mounted w a (reachable_stable w Hreach) Ha)
    as (Hnaf & Hdl & Hsy & Hiv).
  assert (Hw' : w' = setIsRefreshing false
                       (setRefreshError (Some (failure_message o))
                          (settle id w))).
  { subst w'. unfold step, handle, on_settled.
    rewrite (existsb_eqb_In id _ Hin), Hc, Ho.
    rewrite (handleRefresh_resume_failed o _ Hfail).
    apply (proj2 (reachable_mounted_stable w a Hreach Ha));
      try reflexivity; assumption. }
  clearbody w'. subst w'.
  do 7 (split; [reflexivity|]). split.
  - intros d Hd. unfold render.
    cbn [host_app data refreshError setIsRefreshing setRefreshError settle].
    rewrite Ha, Hd. reflexivity.
  - set (w' := setIsRefreshing false _).
    intros ev arg r d' Hev Hr. cbv zeta.
    assert (Hw2 : step Date_getTime JSON_parse w' ev
                  = set_interval (interval_for w)
                      (setSymbolInput (synced_symbol w)
                         (setLegendValues (default_legend Date_getTime w)
                            (handleRefresh arg w')))).
    { unfold step. rewrite Hev.
      now rewrite (run_effects_quiet _ a) by (exact Ha || exact Hnaf). }
    rewrite Hw2. clear Hw2. set (w2 := set_interval _ _).
    assert (Hw3 : step Date_getTime JSON_parse w2
                       (Settled (length (calls w')) (Fulfilled r))
                  = run_effects Date_getTime
                      (handleRefresh_resume JSON_parse (Fulfilled r)
                         (settle (length (calls w')) w2))).
    { unfold step, handle, on_settled.
      change (pending w2) with (pending w' ++ [length (calls w')]).
      rewrite existsb_eqb_snoc.
      change (calls w2)
        with (calls w' ++ [mkCall TOOL_NAME
                             match arg with
                             | Some a0 => if truthy_arg a0 then Some a0 else None
                             | None => None
                             end Refresh]).
      rewrite lookup_app_r, Nat.sub_diag by reflexivity.
      reflexivity. }
    rewrite Hw3. clear Hw3.
    unfold handleRefresh_resume. rewrite Hr.
    rewrite (run_effects_quiet _ a) by (exact Ha || exact Hnaf).
    now repeat split.
Qed.

(** C2, as amended.  While [isRefreshing] is set in a reachable state the
    Refresh button is disabled: a click on it starts no request and leaves
    the whole state unchanged.  The periodic path has no such guard: a tick
    of the interval calls the server tool once more, whatever is already
    pending. *)
Theorem refresh_button_guard (w : Widget) :
  reachable Date_getTime JSON_parse w ->
  isRefreshing w = true ->
  handle Date_getTime JSON_parse RefreshButtonClick w = w
  /\ step Date_getTime JSON_parse w RefreshButtonClick = w
  /\ forall id,
       interval w = Some id ->
       calls (step Date_getTime JSON_parse w IntervalTick)
       = calls w ++ [mkCall TOOL_NAME
                       (if negb (id =? 0) then Some (ArgSecurityId id) else None)
                       Refresh]
       /\ pending (step Date_getTime JSON_parse w IntervalTick)
          = pending w ++ [length (calls w)]
       /\ in_flight (step Date_getTime JSON_parse w IntervalTick)
          = S (in_flight w).
Proof.
  intros Hreach Hrefr.
  destruct (host_app w) as [a|] eqn:Ha; cycle 1.
  { destruct (reachable_unmounted w Hreach Ha) as (Hf & _). congruence. }
  destruct (stable_mounted w a (reachable_stable w Hreach) Ha) as (Hnaf & _).
  assert (Hh : handle Date_getTime JSON_parse RefreshButtonClick w = w).
  { cbn [handle]. now rewrite Ha, Hrefr. }
  split; [exact Hh|]. split.
  - unfold step. rewrite Hh. now apply reachable_stable.
  - intros id Hid. unfold step. cbn [handle]. rewrite Ha, Hid.
    rewrite (run_effects_quiet _ a) by (exact Ha || exact Hnaf).
    split; [reflexivity|]. split; [reflexivity|].
    unfold in_flight.
    cbn [pending handleRefresh callServerTool set_interval setSymbolInput
         setLegendValues setRefreshError setIsRefreshing].
    rewrite length_app. cbn [length]. lia.
Qed.

(** X3. When a pending refresh is fulfilled with a parseable result, the
    new payload replaces [data] wholesale, [isRefreshing] is reset, no
    call is made, and whatever legend was selected is replaced by the
    values of the last candle of the series built from the new items (by
    nothing when that series is empty). *)
Theorem successful_refresh_resets_legend (w : Widget) (id : nat) (c : ToolCall)
    (r : CallToolResult) (d : IntradayCandlestickWidgetData) :
  reachable Date_getTime JSON_parse w ->
  In id (pending w) ->
  calls w !! id = Some c ->
  origin c = Refresh ->
  extractIntradayData JSON_parse (Some r) = Some d ->
  let w' := step Date_getTime JSON_parse w (Settled id (Fulfilled r)) in
  data w' = Some d
  /\ isRefreshing w' = false
  /\ refreshError w' = refreshError w
  /\ calls w' = calls w
  /\ candleData Date_getTime w'
     = map bar_of (aggregateCandles Date_getTime (items d) (selectedTimeframe w))
  /\ legendValues w'
     = legend_of
         <$> last (aggregateCandles Date_getTime (items d) (selectedTimeframe w)).
Proof.
  intros Hreach Hin Hc Ho Hr w'.
  destruct (host_app w) as [a|] eqn:Ha; cycle 1.
  { destruct (reachable_unmounted w Hreach Ha) as (_ & _ & _ & _ & Hp).
    rewrite Hp in Hin. destruct Hin. }
  destruct (stable_mounted w a (reachable_stable w Hreach) Ha) as (Hnaf & _).
  set (w0 := setIsRefreshing false
               (setLegendValues None (setData (Some d) (settle id w)))).
  assert (Hw' : w' = run_effects Date_getTime w0).
  { subst w'. unfold step, handle, on_settled.
    rewrite (existsb_eqb_In id _ Hin), Hc, Ho.
    unfold handleRefresh_resume. now rewrite Hr. }
  rewrite (run_effects_quiet w0 a Ha Hnaf) in Hw'.
  clearbody w'. subst w'.
  assert (Hcd : candleData Date_getTime w0
                = map bar_of (aggregateCandles Date_getTime (items d)
                                (selectedTimeframe w))).
  { unfold candleData, widget_candles, data_items.
    change (data w0) with (Some d).
    change (selectedTimeframe w0) with (selectedTimeframe w).
    destruct (items d); reflexivity. }
  do 4 (split; [reflexivity|]). split; [exact Hcd|].
  cbn [legendValues set_interval setSymbolInput setLegendValues].
  unfold default_legend. change (legendValues w0) with (@None LegendValues).
  cbv iota. rewrite Hcd. unfold legendMap, widget_candles, data_items.
  change (data w0) with (Some d).
  change (selectedTimeframe w0) with (selectedTimeframe w).
  apply legend_map_of_last.
Qed.

End LifecycleFacts.

(** ** The lifecycle on the example widget *)

Lemma reachable_run (D : string -> option Z) (J : string -> option ParsedJSON)
    (evs : list Event) : reachable D J (run D J evs).
Proof.
  unfold run. induction evs as [|ev evs IH] using rev_ind.
  - constructor.
  - rewrite fold_left_app. cbn [fold_left]. apply reachable_step. exact IH.
Qed.

(** ** Invariants of the lifecycle *)

Section LifecycleInvariants.

Variable Date_getTime : string -> option Z.
Variable JSON_parse : string -> option ParsedJSON.

Lemma run_effects_data (w : Widget) :
  data (run_effects Date_getTime w) = data w.
Proof.
  destruct (host_app w) as [a|] eqn:Ha.
  - unfold run_effects, autofetch_effect.
    rewrite (inner_effects_eq Date_getTime w a Ha).
    cbn [host_app needsAutoFetch set_interval setSymbolInput setLegendValues].
    rewrite Ha. destruct (needsAutoFetch w); [|reflexivity].
    destruct (callServerTool_is_function a); reflexivity.
  - now rewrite (run_effects_unmounted Date_getTime w Ha).
Qed.

Lemma handle_data_cases (ev : Event) (w : Widget) :
  data (handle Date_getTime JSON_parse ev w) = data w
  \/ exists r d,
       (ev = ToolResult r \/ exists id, ev = Settled id (Fulfilled r))
       /\ extractIntradayData JSON_parse (Some r) = Some d
       /\ data (handle Date_getTime JSON_parse ev w) = Some d.
Proof.
  destruct ev as [a|r|s| | |tf|t|b|b| |id o]; cbn [handle];
    try (left;
         unfold handleRefreshClick, handleRefresh, handleCrosshairMove,
           last_legend;
         repeat case_match; reflexivity).
  - unfold ontoolresult.
    destruct (extractIntradayData JSON_parse (Some r)) as [d|] eqn:Hr;
      [|now left].
    right. exists r, d. split; [now left|]. now split.
  - unfold on_settled.
    destruct (existsb _ _); [|now left].
    destruct (calls w !! id) as [c|]; [|now left].
    destruct o as [r|].
    + destruct (extractIntradayData JSON_parse (Some r)) as [d|] eqn:Hr.
      * right. exists r, d. split; [right; now exists id|]. split; [exact Hr|].
        unfold handleRefresh_resume, autofetch_resume. rewrite Hr.
        now destruct (origin c).
      * left. unfold handleRefresh_resume, autofetch_resume. rewrite Hr.
        now destruct (origin c).
    + left. now destruct (origin c).
Qed.

(** X11. [data] changes in one way only: an event leaves it as it is,
    unless the event is a tool result from the host or a fulfilled promise
    whose result [extractIntradayData] turns into a payload, which then
    replaces it.  In particular [data], once set, never goes back to
    null. *)
Theorem data_changes_only_by_extraction (w : Widget) (ev : Event) :
  (data (step Date_getTime JSON_parse w ev) = data w
   \/ exists r d,
        (ev = ToolResult r \/ exists id, ev = Settled id (Fulfilled r))
        /\ extractIntradayData JSON_parse (Some r) = Some d
        /\ data (step Date_getTime JSON_parse w ev) = Some d)
  /\ (data w <> None -> data (step Date_getTime JSON_parse w ev) <> None).
Proof.
  unfold step. rewrite run_effects_data.
  destruct (handle_data_cases ev w) as [H | (r & d & Hev & Hr & H)].
  - split; [now left | now rewrite H].
  - split; [right; now exists r, d | rewrite H; discriminate].
Qed.

(** *** Requests in flight *)

Lemma transition_bookkeeping (w w' : Widget) :
  bookkeeping w -> transition w w' -> bookkeeping w'.
Proof.
  intros [Hb Hr] [Hc Hp Hi | c Hc Hp Hi | id c Hc Hp Hl Hi].
  - split; [now rewrite Hc, Hp|].
    rewrite Hi. intros H. destruct (Hr H) as (id & c & H1 & H2 & H3).
    exists id, c. now rewrite Hc, Hp.
  - assert (Hb' : Forall (fun id => (id < length (calls w'))%nat) (pending w')).
    { rewrite Hc, Hp, length_app. cbn [length]. apply Forall_app. split.
      - eapply Forall_impl; [exact Hb|]. cbn. lia.
      - constructor; [lia | constructor]. }
    split; [exact Hb'|]. intros H.
    destruct Hi as [Hi | Hi].
    + rewrite Hi in H. destruct (Hr H) as (id & c0 & H1 & H2 & H3).
      exists id, c0. rewrite Hc, Hp. split; [apply in_or_app; now left|].
      split; [|exact H3]. rewrite lookup_app_l; [exact H2|].
      rewrite List.Forall_forall in Hb. now apply Hb.
    + exists (length (calls w)), c. rewrite Hc, Hp.
      split; [apply in_or_app; right; now left|]. split; [|exact Hi].
      rewrite lookup_app_r, Nat.sub_diag by reflexivity. reflexivity.
  - split.
    + rewrite Hc, Hp. apply List.Forall_forall. intros i Hi'.
      apply filter_In in Hi' as [Hi' _].
      rewrite List.Forall_forall in Hb. now apply Hb.
    + intros H. destruct Hi as [Hi | [Hi Ho]]; [congruence|].
      rewrite Hi in H. destruct (Hr H) as (id0 & c0 & H1 & H2 & H3).
      exists id0, c0. rewrite Hc, Hp. split; [|now split].
      apply filter_In. split; [exact H1|].
      apply negb_true_iff, Nat.eqb_neq. intros ->. congruence.
Qed.

Lemma run_effects_transition (w : Widget) :
  transition w (run_effects Date_getTime w).
Proof.
  destruct (host_app w) as [a|] eqn:Ha.
  - unfold run_effects, autofetch_effect.
    rewrite (inner_effects_eq Date_getTime w a Ha).
    cbn [host_app needsAutoFetch set_interval setSymbolInput setLegendValues].
    rewrite Ha. destruct (needsAutoFetch w); [|now apply tr_same].
    destruct (callServerTool_is_function a); [|now apply tr_same].
    apply (tr_call _ _ (mkCall TOOL_NAME None AutoFetch)); try reflexivity.
    now left.
  - rewrite (run_effects_unmounted Date_getTime w Ha). now apply tr_same.
Qed.

Lemma handleRefresh_transition (arg : option Arg) (w : Widget) :
  transition w (handleRefresh arg w).
Proof.
  unfold handleRefresh. eapply tr_call; [reflexivity | reflexivity | now right].
Qed.

Lemma handle_transition (ev : Event) (w : Widget) :
  transition w (handle Date_getTime JSON_parse ev w).
Proof.
  destruct ev as [a|r|s| | |tf|t|b|b| |id o]; cbn [handle];
    try (repeat case_match; now apply tr_same).
  - unfold ontoolresult. case_match; now apply tr_same.
  - destruct (host_app w); [|now apply tr_same].
    destruct (isRefreshing w) eqn:Hi; [now apply tr_same|].
    unfold handleRefreshClick.
    destruct (JS.truthy_string _); [apply handleRefresh_transition | now apply tr_same].
  - destruct (host_app w); [|now apply tr_same].
    unfold handleRefreshClick.
    destruct (JS.truthy_string _); [apply handleRefresh_transition | now apply tr_same].
  - destruct (host_app w); [|now apply tr_same].
    destruct (chart_rendered _ _); [|now apply tr_same].
    unfold handleCrosshairMove, last_legend. repeat case_match; now apply tr_same.
  - destruct (host_app w); [|now apply tr_same].
    destruct (interval w); [apply handleRefresh_transition | now apply tr_same].
  - unfold on_settled.
    destruct (existsb _ _); [|now apply tr_same].
    destruct (calls w !! id) as [c|] eqn:Hc; [|now apply tr_same].
    destruct (origin c) eqn:Ho.
    + apply (tr_settle _ _ id c); try assumption.
      * unfold autofetch_resume. now repeat case_match.
      * unfold autofetch_resume. now repeat case_match.
      * right. split; [|exact Ho]. unfold autofetch_resume. now repeat case_match.
    + apply (tr_settle _ _ id c); try assumption.
      * unfold handleRefresh_resume. now repeat case_match.
      * unfold handleRefresh_resume. now repeat case_match.
      * left. reflexivity.
Qed.

Lemma reachable_bookkeeping (w : Widget) :
  reachable Date_getTime JSON_parse w -> bookkeeping w.
Proof.
  induction 1 as [|w ev _ IH].
  - split; [constructor | discriminate].
  - unfold step. eapply transition_bookkeeping; [|apply run_effects_transition].
    eapply transition_bookkeeping; [exact IH | apply handle_transition].
Qed.

(** X12. In every reachable state, [isRefreshing] is set only while a
    call made by [handleRefresh] is still pending: with no promise pending
    the Refresh and timeframe buttons are enabled. *)
Theorem isRefreshing_has_pending_refresh (w : Widget) :
  reachable Date_getTime JSON_parse w ->
  (isRefreshing w = true ->
   exists id c,
     In id (pending w) /\ calls w !! id = Some c /\ origin c = Refresh)
  /\ (pending w = [] -> isRefreshing w = false).
Proof.
  intros Hr. destruct (reachable_bookkeeping w Hr) as [_ H].
  split; [exact H|].
  intros Hp. destruct (isRefreshing w); [|reflexivity].
  destruct (H eq_refl) as (id & c & Hin & _). rewrite Hp in Hin. destruct Hin.
Qed.

(** *** What the effects maintain *)

Lemma truthy_string_true (s : string) : JS.truthy_string s = true <-> s <> "".
Proof. destruct s; cbn; split; congruence. Qed.

(** X13. Once a payload with a non-empty symbol is loaded the symbol
    input is never empty: the sync effect refills it, and when the user
    clears the field it holds [data.symbol] again after the effects. *)
Theorem symbol_input_is_refilled (w : Widget) (d : IntradayCandlestickWidgetData) :
  reachable Date_getTime JSON_parse w ->
  host_app w <> None ->
  data w = Some d ->
  symbol d <> "" ->
  symbolInput w <> ""
  /\ symbolInput (step Date_getTime JSON_parse w (SymbolInputChange ""))
     = symbol d.
Proof.
  intros Hr Hm Hd Hs.
  destruct (host_app w) as [a|] eqn:Ha; [clear Hm | congruence].
  destruct (stable_mounted Date_getTime w a (reachable_stable _ _ w Hr) Ha)
    as (Hnaf & _ & Hsy & _).
  apply truthy_string_true in Hs. split.
  - unfold synced_symbol in Hsy. rewrite Hd, Hs in Hsy. cbn [andb] in Hsy.
    destruct (JS.truthy_string (symbolInput w)) eqn:Hi.
    + now apply truthy_string_true.
    + cbn [negb] in Hsy. rewrite <- Hsy. now apply truthy_string_true.
  - unfold step. cbn [handle]. rewrite Ha.
    rewrite (run_effects_quiet Date_getTime _ a) by (exact Ha || exact Hnaf).
    cbn [symbolInput set_interval setSymbolInput].
    unfold synced_symbol. cbn [data symbolInput setLegendValues setSymbolInput].
    now rewrite Hd, Hs.
Qed.


Lemma candleData_nonempty (w : Widget) :
  candleData Date_getTime w <> [] ->
  exists d, data w = Some d
            /\ candleData Date_getTime w
               = map bar_of (aggregateCandles Date_getTime (items d)
                               (selectedTimeframe w))
            /\ legendMap Date_getTime w
               = legend_map_of (aggregateCandles Date_getTime (items d)
                                  (selectedTimeframe w)).
Proof.
  unfold candleData, legendMap, widget_candles, data_items.
  destruct (data w) as [d|]; [|congruence].
  intros H. exists d. split; [reflexivity|]. split; [|reflexivity].
  destruct (items d); [congruence | reflexivity].
Qed.

(** X15. In every reachable state in which the chart has candles to
    show, some legend values are selected. *)
Theorem chart_always_has_a_legend (w : Widget) :
  reachable Date_getTime JSON_parse w ->
  host_app w <> None ->
  candleData Date_getTime w <> [] ->
  exists v, legendValues w = Some v.
Proof.
  intros Hr Hm Hc.
  destruct (host_app w) as [a|] eqn:Ha; [clear Hm | congruence].
  destruct (stable_mounted Date_getTime w a (reachable_stable _ _ w Hr) Ha)
    as (_ & Hdl & _).
  destruct (legendValues w) as [v|] eqn:Hlv; [now exists v|]. exfalso.
  unfold default_legend in Hdl. rewrite Hlv in Hdl.
  destruct (candleData_nonempty w Hc) as (d & Hd & Hcd & Hlm).
  rewrite Hcd, Hlm, legend_map_of_last in Hdl.
  rewrite Hcd in Hc.
  destruct (aggregateCandles Date_getTime (items d) (selectedTimeframe w))
    as [|c cs] using rev_ind; [now apply Hc|].
  rewrite last_snoc in Hdl. discriminate.
Qed.

(** *** The crosshair *)

Lemma legend_map_of_dom (cs : list AggregatedCandle) (k : Z) (v : LegendValues) :
  legend_map_of cs !! k = Some v -> exists c, In c cs /\ time c = k.
Proof.
  induction cs as [|c cs IH] using rev_ind; [discriminate|].
  rewrite legend_map_of_snoc.
  destruct (decide (time c = k)) as [He|Hne].
  - intros _. exists c. split; [apply in_or_app; right; now left | exact He].
  - rewrite lookup_insert_ne by exact Hne. intros H.
    destruct (IH H) as (c' & Hin & Hc'). exists c'.
    split; [apply in_or_app; now left | exact Hc'].
Qed.

Lemma legend_map_of_find (cs : list AggregatedCandle) (k : Z) :
  NoDup (map time cs) ->
  legend_map_of cs !! k = legend_of <$> List.find (fun c => time c =? k) cs.
Proof.
  intros Hnd. destruct (List.find _ cs) as [c|] eqn:Hf.
  - apply find_some in Hf as [Hin Hk]. apply Z.eqb_eq in Hk. subst k.
    now apply legend_map_of_lookup.
  - destruct (legend_map_of cs !! k) as [v|] eqn:Hl; [|reflexivity].
    apply legend_map_of_dom in Hl as (c & Hin & Hc).
    apply (find_none _ _ Hf) in Hin. apply Z.eqb_neq in Hin. contradiction.
Qed.

(** X16. A crosshair move on the displayed chart selects the legend of
    the candle whose bucket start is the time under the crosshair; with no
    time, the time 0, or a time that starts no candle, it selects the last
    candle.  It changes no data and calls nothing. *)
Theorem crosshair_selects_bucket_or_last (w : Widget) (t : option Z) :
  reachable Date_getTime JSON_parse w ->
  host_app w <> None ->
  candleData Date_getTime w <> [] ->
  let w' := step Date_getTime JSON_parse w (CrosshairMove t) in
  let cs := aggregateCandles Date_getTime (data_items w) (selectedTimeframe w) in
  data w' = data w
  /\ calls w' = calls w
  /\ legendValues w'
     = match
         match t with
         | Some k => if k =? 0 then None
                     else List.find (fun c => time c =? k) cs
         | None => None
         end
       with
       | Some c => Some (legend_of c)
       | None => legend_of <$> last cs
       end.
Proof.
  intros Hr Hm Hc w' cs.
  destruct (host_app w) as [a|] eqn:Ha; [clear Hm | congruence].
  destruct (stable_mounted Date_getTime w a (reachable_stable _ _ w Hr) Ha)
    as (Hnaf & _).
  destruct (candleData_nonempty w Hc) as (d & Hd & Hcd & Hlm).
  assert (Hcs : cs = aggregateCandles Date_getTime (items d) (selectedTimeframe w)).
  { subst cs. unfold data_items. now rewrite Hd. }
  rewrite <- Hcs in Hcd, Hlm.
  assert (Hlast : exists c, last cs = Some c).
  { rewrite Hcd in Hc. destruct cs as [|c0 cs0 _] using rev_ind; [now destruct Hc|].
    exists c0. apply last_snoc. }
  destruct Hlast as (cl & Hcl).
  assert (Hll : last_legend Date_getTime w
                = setLegendValues (Some (legend_of cl)) w).
  { unfold last_legend. pose proof (legend_map_of_last cs) as H.
    rewrite Hcd, Hlm. rewrite Hcl in H. cbn [fmap option_fmap option_map] in H.
    destruct (last (map bar_of cs)) as [bar|]; [|discriminate].
    now rewrite H. }
  assert (Hh : exists v,
             handle Date_getTime JSON_parse (CrosshairMove t) w
             = setLegendValues (Some v) w
             /\ Some v
                = match
                    match t with
                    | Some k => if k =? 0 then None
                                else List.find (fun c => time c =? k) cs
                    | None => None
                    end
                  with
                  | Some c => Some (legend_of c)
                  | None => legend_of <$> last cs
                  end).
  { cbn [handle]. rewrite Ha.
    assert (Hcr : chart_rendered Date_getTime w = true).
    { unfold chart_rendered. rewrite Hd.
      destruct (candleData Date_getTime w); [now destruct Hc | reflexivity]. }
    rewrite Hcr. unfold handleCrosshairMove. rewrite Hlm, Hcl.
    cbn [fmap option_fmap option_map].
    destruct t as [k|]; [|exists (legend_of cl); now rewrite Hll].
    destruct (k =? 0); [exists (legend_of cl); now rewrite Hll|].
    rewrite legend_map_of_find
      by (rewrite Hcs; apply aggregateCandles_times_NoDup).
    destruct (List.find _ cs) as [c|]; cbn [fmap option_fmap option_map].
    - now exists (legend_of c).
    - exists (legend_of cl). now rewrite Hll. }
  destruct Hh as (v & Hh & Hv). subst w'. unfold step. rewrite Hh.
  rewrite (run_effects_quiet Date_getTime _ a) by (exact Ha || exact Hnaf).
  split; [reflexivity|]. split; [reflexivity|].
  rewrite <- Hv. reflexivity.
Qed.

(** *** The symbol typed by the user *)






(** *** Payloads that arrive without a refresh *)

Lemma loaded_effects (w0 : Widget) (a : App) (d : IntradayCandlestickWidgetData) :
  host_app w0 = Some a ->
  needsAutoFetch w0 = false ->
  let w' := run_effects Date_getTime (setData (Some d) w0) in
  data w' = Some d
  /\ calls w' = calls w0
  /\ pending w' = pending w0
  /\ isRefreshing w' = isRefreshing w0
  /\ refreshError w' = refreshError w0
  /\ selectedTimeframe w' = selectedTimeframe w0
  /\ legendValues w'
     = match legendValues w0 with
       | Some v => Some v
       | None =>
           legend_of
             <$> last (aggregateCandles Date_getTime (items d)
                         (selectedTimeframe w0))
       end.
Proof.
  intros Ha Hnaf w'. subst w'.
  rewrite (run_effects_quiet Date_getTime (setData (Some d) w0) a Ha Hnaf).
  do 6 (split; [reflexivity|]).
  cbn [legendValues set_interval setSymbolInput setLegendValues].
  unfold default_legend.
  change (legendValues (setData (Some d) w0)) with (legendValues w0).
  destruct (legendValues w0) as [v|]; [reflexivity|].
  assert (Hcd : candleData Date_getTime (setData (Some d) w0)
                = map bar_of (aggregateCandles Date_getTime (items d)
                                (selectedTimeframe w0))).
  { unfold candleData, widget_candles, data_items.
    change (data (setData (Some d) w0)) with (Some d).
    change (selectedTimeframe (setData (Some d) w0)) with (selectedTimeframe w0).
    destruct (items d); reflexivity. }
  rewrite Hcd. unfold legendMap, widget_candles, data_items.
  change (data (setData (Some d) w0)) with (Some d).
  change (selectedTimeframe (setData (Some d) w0)) with (selectedTimeframe w0).
  apply legend_map_of_last.
Qed.

(** X18. A tool result from the host that holds a payload replaces
    [data], calls nothing and touches neither [isRefreshing] nor the error
    nor the timeframe.  Unlike a refresh it does not clear the legend:
    values already selected stay, and only when none is selected do those
    of the last candle of the new series appear. *)
Theorem host_result_keeps_selected_legend (w : Widget) (r : CallToolResult)
    (d : IntradayCandlestickWidgetData) :
  reachable Date_getTime JSON_parse w ->
  host_app w <> None ->
  extractIntradayData JSON_parse (Some r) = Some d ->
  let w' := step Date_getTime JSON_parse w (ToolResult r) in
  data w' = Some d
  /\ calls w' = calls w
  /\ pending w' = pending w
  /\ isRefreshing w' = isRefreshing w
  /\ refreshError w' = refreshError w
  /\ selectedTimeframe w' = selectedTimeframe w
  /\ legendValues w'
     = match legendValues w with
       | Some v => Some v
       | None =>
           legend_of
             <$> last (aggregateCandles Date_getTime (items d)
                         (selectedTimeframe w))
       end.
Proof.
  intros Hr Hm He w'.
  destruct (host_app w) as [a|] eqn:Ha; [clear Hm | congruence].
  destruct (stable_mounted Date_getTime w a (reachable_stable _ _ w Hr) Ha)
    as (Hnaf & _).
  subst w'. unfold step. cbn [handle]. unfold ontoolresult. rewrite He.
  exact (loaded_effects w a d Ha Hnaf).
Qed.

(** X19. When the fallback fetch is fulfilled with a payload, the
    payload becomes [data] and the promise is no longer pending; nothing is
    called, [isRefreshing] and the error stay as they were, and the legend
    is kept or defaults to the last candle as for a result from the
    host. *)
Theorem fallback_success_loads_data (w : Widget) (id : nat) (c : ToolCall)
    (r : CallToolResult) (d : IntradayCandlestickWidgetData) :
  reachable Date_getTime JSON_parse w ->
  In id (pending w) ->
  calls w !! id = Some c ->
  origin c = AutoFetch ->
  extractIntradayData JSON_parse (Some r) = Some d ->
  let w' := step Date_getTime JSON_parse w (Settled id (Fulfilled r)) in
  data w' = Some d
  /\ calls w' = calls w
  /\ pending w' = List.filter (fun i => negb (Nat.eqb i id)) (pending w)
  /\ isRefreshing w' = isRefreshing w
  /\ refreshError w' = refreshError w
  /\ selectedTimeframe w' = selectedTimeframe w
  /\ legendValues w'
     = match legendValues w with
       | Some v => Some v
       | None =>
           legend_of
             <$> last (aggregateCandles Date_getTime (items d)
                         (selectedTimeframe w))
       end.
Proof.
  intros Hr Hin Hc Ho He w'.
  destruct (host_app w) as [a|] eqn:Ha; cycle 1.
  { destruct (reachable_unmounted _ _ w Hr Ha) as (_ & _ & _ & _ & Hp).
    rewrite Hp in Hin. destruct Hin. }
  destruct (stable_mounted Date_getTime w a (reachable_stable _ _ w Hr) Ha)
    as (Hnaf & _).
  subst w'. unfold step, handle, on_settled.
  rewrite (existsb_eqb_In id _ Hin), Hc, Ho.
  unfold autofetch_resume. rewrite He.
  exact (loaded_effects (settle id w) a d Ha Hnaf).
Qed.

(** *** Before the host connects *)

Lemma handle_unmounted (w : Widget) (ev : Event) :
  host_app w = None ->
  is_connection ev = false ->
  host_app (handle Date_getTime JSON_parse ev w) = None.
Proof.
  intros Ha Hev.
  destruct ev; try discriminate; cbn [handle]; try (rewrite Ha; exact Ha).
  - unfold ontoolresult.
    destruct (extractIntradayData JSON_parse (Some result)); exact Ha.
  - unfold on_settled, handleRefresh_resume, autofetch_resume.
    repeat match goal with
           | |- context [match ?x with _ => _ end] => destruct x
           end; exact Ha.
Qed.

Lemma run_unmounted (evs : list Event) :
  forallb (fun ev => negb (is_connection ev)) evs = true ->
  host_app (run Date_getTime JSON_parse evs) = None.
Proof.
  induction evs as [|ev evs IH] using rev_ind; [reflexivity|].
  rewrite forallb_app. cbn [forallb]. rewrite andb_true_r.
  intros H. apply andb_prop in H as [H1 H2].
  unfold run. rewrite fold_left_app. cbn [fold_left].
  fold (run Date_getTime JSON_parse evs). unfold step.
  rewrite run_effects_host_app.
  apply handle_unmounted; [now apply IH|].
  now apply negb_true_iff in H2.
Qed.

(** X20. Until the host connects, whatever else happens (a tool result
    delivered early included), the widget calls nothing and has nothing
    pending. *)
Theorem no_request_before_connection (evs : list Event) :
  forallb (fun ev => negb (is_connection ev)) evs = true ->
  let w := run Date_getTime JSON_parse evs in
  host_app w = None /\ calls w = [] /\ pending w = [].
Proof.
  intros H w. pose proof (run_unmounted evs H) as Ha. fold w in Ha.
  assert (Hr : reachable Date_getTime JSON_parse w) by apply reachable_run.
  pose proof (reachable_unmounted _ _ w Hr Ha) as HH.
  revert Ha HH. generalize w. intros w0 Ha HH.
  tauto.
Qed.

(** *** The two series handed to the chart *)

(** X21. The candle series and the volume series handed to the chart
    have the same times in the same order, strictly increasing; every
    volume bar carries the volume of a candle, green when
    [close >= open] and red otherwise. *)
Theorem chart_series_aligned (w : Widget) :
  map bar_time (candleData Date_getTime w)
  = map histo_time (volumeData Date_getTime w)
  /\ length (candleData Date_getTime w) = length (volumeData Date_getTime w)
  /\ StronglySorted Z.lt (map bar_time (candleData Date_getTime w))
  /\ forall h, In h (volumeData Date_getTime w) ->
       exists c, In c (widget_candles Date_getTime w)
                 /\ histo_time h = time c /\ value h = volume c
                 /\ color h = if JS.ge (close c) (open c)
                              then "rgba(16, 185, 129, 0.4)"
                              else "rgba(239, 68, 68, 0.4)".
Proof.
  unfold candleData, volumeData.
  destruct (data_items w) as [|it its] eqn:Hits.
  - split; [reflexivity|]. split; [reflexivity|]. split; [constructor|].
    intros h [].
  - rewrite !map_map. cbn [bar_of bar_time histo_of histo_time].
    rewrite !length_map.
    split; [reflexivity|]. split; [reflexivity|]. split.
    + unfold widget_candles. apply aggregateCandles_times_sorted.
    + intros h Hh. apply in_map_iff in Hh as (c & <- & Hc).
      exists c. now repeat split.
Qed.

End LifecycleInvariants.

Lemma connected_widget_app : host_app connected_widget = Some (mkApp true).
Proof. vm_compute. reflexivity. Qed.

Lemma loaded_widget_mounted : host_app loaded_widget <> None.
Proof. vm_compute. discriminate. Qed.

Lemma loaded_widget_idle : isRefreshing loaded_widget = false.
Proof. vm_compute. reflexivity. Qed.

Lemma refreshing_widget_isRefreshing : isRefreshing refreshing_widget = true.
Proof. vm_compute. reflexivity. Qed.

Lemma refreshing_widget_pending : In 0%nat (pending refreshing_widget).
Proof. vm_compute. left. reflexivity. Qed.

Lemma refreshing_widget_call :
  calls refreshing_widget !! 0%nat
  = Some (mkCall TOOL_NAME (Some (ArgSymbol "TEVA")) Refresh).
Proof. vm_compute. reflexivity. Qed.

(** C2, as stated, fails: with a manual refresh pending (the Refresh button
    pressed on the loaded widget, [isRefreshing] set), a tick of the
    auto-refresh interval starts a second request, and two requests are in
    flight. *)
Lemma two_requests_in_flight :
  isRefreshing refreshing_widget = true
  /\ in_flight refreshing_widget = 1%nat
  /\ in_flight (step Date_getTime_utc JSON_parse_throws refreshing_widget
                     IntervalTick) = 2%nat
  /\ calls (step Date_getTime_utc JSON_parse_throws refreshing_widget
                 IntervalTick)
     = [mkCall TOOL_NAME (Some (ArgSymbol "TEVA")) Refresh;
        mkCall TOOL_NAME (Some (ArgSecurityId 629014)) Refresh].
Proof. repeat split; vm_compute; reflexivity. Qed.

Lemma refresh_button_guard_witness :
  step Date_getTime_utc JSON_parse_throws refreshing_widget RefreshButtonClick
  = refreshing_widget.
Proof.
  exact (proj1 (proj2 (refresh_button_guard Date_getTime_utc JSON_parse_throws
           refreshing_widget (reachable_run _ _ _)
           refreshing_widget_isRefreshing))).
Defined.

Lemma unparseable_result_one_fallback_witness :
  fallback_issued connected_widget
    (step Date_getTime_utc JSON_parse_throws connected_widget
          (ToolResult empty_result)).
Proof.
  exact (proj1 (proj1 (unparseable_result_one_fallback Date_getTime_utc
                         JSON_parse_throws connected_widget (mkApp true)
                         empty_result eq_refl eq_refl)
                  connected_widget_app)).
Defined.

Lemma failed_refresh_keeps_data_witness :
  refreshError (step Date_getTime_utc JSON_parse_throws refreshing_widget
                     (Settled 0 Rejected))
  = Some "Failed to fetch data".
Proof.
  exact (proj1 (failed_refresh_keeps_data Date_getTime_utc JSON_parse_throws
           refreshing_widget 0 _ Rejected (reachable_run _ _ _)
           refreshing_widget_pending refreshing_widget_call eq_refl
           (or_introl eq_refl))).
Defined.

Lemma timeframe_change_reaggregates_witness :
  candleData Date_getTime_utc
    (step Date_getTime_utc JSON_parse_throws loaded_widget
          (TimeframeClick TF_1m))
  = map bar_of [scenario_candle "09:30:00" 100 100 100 100 10;
                scenario_candle "09:31:00" 101 101 101 101 5;
                scenario_candle "09:35:00" 99 99 99 99 7].
Proof.
  rewrite (proj1 (proj2 (proj2 (proj2 (proj2
             (timeframe_change_reaggregates Date_getTime_utc
                JSON_parse_throws loaded_widget TF_1m (reachable_run _ _ _)
                loaded_widget_mounted loaded_widget_idle)))))).
  vm_compute. reflexivity.
Defined.

Lemma loaded_result_extracted :
  extractIntradayData JSON_parse_throws (Some loaded_result)
  = Some (mkData "TEVA" 629014 3 scenario_items).
Proof. reflexivity. Qed.

Lemma successful_refresh_resets_legend_witness :
  legendValues (step Date_getTime_utc JSON_parse_throws refreshing_widget
                     (Settled 0 (Fulfilled loaded_result)))
  = legend_of <$> last (aggregateCandles Date_getTime_utc scenario_items TF_5m).
Proof.
  exact (proj2 (proj2 (proj2 (proj2 (proj2
           (successful_refresh_resets_legend Date_getTime_utc
              JSON_parse_throws refreshing_widget 0 _ loaded_result _
              (reachable_run _ _ _) refreshing_widget_pending
              refreshing_widget_call eq_refl loaded_result_extracted)))))).
Defined.

Lemma loaded_widget_data :
  data loaded_widget = Some (mkData "TEVA" 629014 3 scenario_items).
Proof. vm_compute. reflexivity. Qed.

Lemma loaded_widget_chart : candleData Date_getTime_utc loaded_widget <> [].
Proof. vm_compute. discriminate. Qed.

Lemma fallback_widget_pending : In 0%nat (pending fallback_widget).
Proof. vm_compute. left. reflexivity. Qed.

Lemma fallback_widget_call :
  calls fallback_widget !! 0%nat = Some (mkCall TOOL_NAME None AutoFetch).
Proof. vm_compute. reflexivity. Qed.



Lemma no_items_result_extracted :
  extractIntradayData JSON_parse_throws (Some no_items_result)
  = Some (mkData "TEVA" 629014 0 []).
Proof. reflexivity. Qed.

Lemma data_changes_only_by_extraction_witness :
  data (step Date_getTime_utc JSON_parse_throws loaded_widget
             (Settled 0 Rejected)) <> None.
Proof.
  apply (proj2 (data_changes_only_by_extraction Date_getTime_utc
                  JSON_parse_throws loaded_widget (Settled 0 Rejected))).
  rewrite loaded_widget_data. discriminate.
Defined.

Lemma isRefreshing_has_pending_refresh_witness :
  exists id c,
    In id (pending refreshing_widget)
    /\ calls refreshing_widget !! id = Some c /\ origin c = Refresh.
Proof.
  exact (proj1 (isRefreshing_has_pending_refresh Date_getTime_utc
                  JSON_parse_throws refreshing_widget (reachable_run _ _ _))
           refreshing_widget_isRefreshing).
Defined.

Lemma symbol_input_is_refilled_witness :
  symbolInput (step Date_getTime_utc JSON_parse_throws loaded_widget
                    (SymbolInputChange ""))
  = "TEVA".
Proof.
  exact (proj2 (symbol_input_is_refilled Date_getTime_utc JSON_parse_throws
                  loaded_widget (mkData "TEVA" 629014 3 scenario_items)
                  (reachable_run _ _ _) loaded_widget_mounted
                  loaded_widget_data ltac:(discriminate))).
Defined.


Lemma chart_always_has_a_legend_witness :
  exists v, legendValues loaded_widget = Some v.
Proof.
  exact (chart_always_has_a_legend Date_getTime_utc JSON_parse_throws
           loaded_widget (reachable_run _ _ _) loaded_widget_mounted
           loaded_widget_chart).
Defined.

Lemma crosshair_selects_bucket_or_last_witness :
  legendValues (step Date_getTime_utc JSON_parse_throws loaded_widget
                     (CrosshairMove (Some (scenario_time "09:30:00"))))
  = Some (legend_of (scenario_candle "09:30:00" 100 101 100 101 15)).
Proof.
  rewrite (proj2 (proj2 (crosshair_selects_bucket_or_last Date_getTime_utc
                           JSON_parse_throws loaded_widget
                           (Some (scenario_time "09:30:00"))
                           (reachable_run _ _ _) loaded_widget_mounted
                           loaded_widget_chart))).
  vm_compute. reflexivity.
Defined.


Lemma host_result_keeps_selected_legend_witness :
  legendValues (step Date_getTime_utc JSON_parse_throws loaded_widget
                     (ToolResult no_items_result))
  = Some (legend_of (scenario_candle "09:35:00" 99 99 99 99 7)).
Proof.
  rewrite (proj2 (proj2 (proj2 (proj2 (proj2 (proj2
             (host_result_keeps_selected_legend Date_getTime_utc
                JSON_parse_throws loaded_widget no_items_result _
                (reachable_run _ _ _) loaded_widget_mounted
                no_items_result_extracted))))))).
  vm_compute. reflexivity.
Defined.

Lemma fallback_success_loads_data_witness :
  data (step Date_getTime_utc JSON_parse_throws fallback_widget
             (Settled 0 (Fulfilled loaded_result)))
  = Some (mkData "TEVA" 629014 3 scenario_items).
Proof.
  exact (proj1 (fallback_success_loads_data Date_getTime_utc
                  JSON_parse_throws fallback_widget 0 _ loaded_result _
                  (reachable_run _ _ _) fallback_widget_pending
                  fallback_widget_call eq_refl loaded_result_extracted)).
Defined.

Lemma no_request_before_connection_witness :
  calls (run Date_getTime_utc JSON_parse_throws
             [ToolResult empty_result; RefreshButtonClick; IntervalTick])
  = [].
Proof.
  exact (proj1 (proj2 (no_request_before_connection Date_getTime_utc
                  JSON_parse_throws
                  [ToolResult empty_result; RefreshButtonClick; IntervalTick]
                  eq_refl))).
Defined.
